(** * google-location-history: a shallow embedding of [main.go]

    The program reads a location-history export, computes a latitude /
    longitude box around a target point, asks a k-d index for the points in
    the box and scans them for visits.  The first part embeds the program:
    [find] and [findBoundingBox], [parseDistance], the conversion loop of
    [main], its visit scan, and [main] itself.  The second part states and
    proves its properties.

    Conventions.
    - [float64] is Rocq's primitive binary64 float; Go's [a > b] is written
      [b <? a], which is [false] as soon as an operand is NaN, as in Go.
    - Go strings are byte strings: [string] of the Standard Library.
    - Go's [int] counters are [Z].  Every counter of the scan is increased by
      one at most once per loop iteration, and the loop runs over indices of
      a slice, so no counter reaches 2^63 (lemma [scan_counters_bounded]).
    - Functions of other packages ([geodist.VincentyDistance],
      [strconv.ParseFloat], [strconv.ParseInt], [strings.ToLower],
      [strings.TrimSpace], [kdbush]'s [Range]) are parameters of the
      sections; the instances in [Units], [Decode], [Main] and [Instances]
      are only used to run the definitions on concrete inputs. *)

From Stdlib Require Import ZArith List String Ascii Lia Bool.
From Stdlib Require Import Floats.PrimFloat Numbers.Cyclic.Int63.Uint63.
From stdpp Require Import base gmap sets list sorting.

Set Warnings "-inexact-float".

Open Scope Z_scope.

(** ** Values shared by the whole program *)

(** [geodist.Point] *)
Record Point := mkPoint { Lat : float; Long : float }.

(** [time.Time], at the resolution the program uses: [time.Unix(seconds, 0)]. *)
Definition Time := Z.

(** The zero [time.Time] (January 1, year 1) as Unix seconds. *)
Definition zeroTime : Time := -62135596800.

(** [type ConvertedLocation struct] *)
Record ConvertedLocation := mkConverted {
  Latitude : float;
  Longitude : float;
  LocTime : Time
}.

(** [type Location struct]: the JSON record of the export. *)
Record Location := mkLocation {
  latitudeE7 : Z;
  longitudeE7 : Z;
  timestampMs : string
}.

(** A Go function returning [(T, error)]. *)
Inductive result (E A : Type) : Type :=
| Ok (a : A)
| Err (e : E).
Arguments Ok {E A} a.
Arguments Err {E A} e.

(** ** The bounding box solver *)

Module Box.

(** [type direction float64] and its four constants. *)
Definition direction := float.
Definition north : direction := 1%float.
Definition east : direction := 1%float.
Definition south : direction := (-1)%float.
Definition west : direction := (-1)%float.

Definition reverse (d : direction) : direction := (d * -1)%float.

(** [adjust *float64] always points into [p2]: at its latitude or at its
    longitude. *)
Inductive field := FLat | FLong.

Definition load (f : field) (p : Point) : float :=
  match f with FLat => Lat p | FLong => Long p end.

Definition store (f : field) (p : Point) (v : float) : Point :=
  match f with
  | FLat => mkPoint v (Long p)
  | FLong => mkPoint (Lat p) v
  end.

(** The errors [find] builds with [fmt.Errorf]. *)
Inductive find_error :=
| TooCloseToPoleOrMeridian          (* "too close to a pole or meridian" *)
| DistanceError (e : string)        (* "Error computing distance: %s" *)
| DistanceErrorPhase2 (e : string). (* "Error computing distance (phase 2): %s" *)

(** Go's [a > b] on float64. *)
Definition fgt (a b : float) : bool := (b <? a)%float.

(** [delta := d - targetDistance; if delta < 0 { delta = -delta }] *)
Definition abs_delta (d targetDistance : float) : float :=
  let delta := (d - targetDistance)%float in
  if (delta <? 0)%float then (- delta)%float else delta.

(** [threshold := 0.0001] *)
Definition threshold : float := 0.0001%float.

(** The exit test of the bisection: [delta < threshold]. *)
Definition within_tolerance (d targetDistance : float) : bool :=
  (abs_delta d targetDistance <? threshold)%float.

Section Solver.

(** [geodist.VincentyDistance] *)
Variable VincentyDistance : Point -> Point -> result string float.

Section Find.

Variables (p1 : Point) (dir : direction) (adjust : field)
          (limit targetDistance : float).

(** The first loop of [find].  The state is [*p2] and [inc]; the result is
    the final [*p2] and the error, if any.  [None]: the loop is still running
    after [fuel] iterations. *)
Fixpoint expand (fuel : nat) (p2 : Point) (inc : float)
  : option (Point * option find_error) :=
  match fuel with
  | O => None
  | S fuel' =>
      let p2 := store adjust p2 (load adjust p2 + inc * dir)%float in
      if fgt (load adjust p2 * dir)%float (limit * dir)%float
      then Some (p2, Some TooCloseToPoleOrMeridian)
      else
        match VincentyDistance p1 p2 with
        | Err e => Some (p2, Some (DistanceError e))
        | Ok d =>
            if fgt d targetDistance then Some (p2, None)
            else expand fuel' p2 (inc * 2)%float
        end
  end.

Definition midpoint (a b : Point) : Point :=
  mkPoint ((Lat a + Lat b) / 2)%float ((Long a + Long b) / 2)%float.

(** The second loop of [find]: [Ok m] when [*p2 = m; return nil] is reached. *)
Fixpoint bisect (fuel : nat) (a b : Point) : option (result find_error Point) :=
  match fuel with
  | O => None
  | S fuel' =>
      let m := midpoint a b in
      match VincentyDistance p1 m with
      | Err e => Some (Err (DistanceErrorPhase2 e))
      | Ok d =>
          if within_tolerance d targetDistance then Some (Ok m)
          else if fgt d targetDistance then bisect fuel' a m
          else bisect fuel' m b
      end
  end.

(** [find]: the final value of [*p2] and the returned error. *)
Definition find (fuel : nat) (p2 : Point) : option (Point * option find_error) :=
  match expand fuel p2 1e-6%float with
  | None => None
  | Some (p2', Some e) => Some (p2', Some e)
  | Some (p2', None) =>
      match bisect fuel p1 p2' with
      | None => None
      | Some (Err e) => Some (p2', Some e)
      | Some (Ok m) => Some (m, None)
      end
  end.

(** The guard of the first loop, on a stepped point. *)
Definition passes_limit (p2 : Point) : bool :=
  fgt (load adjust p2 * dir)%float (limit * dir)%float.

(** An iteration that goes round the loop: the guard does not fire, the
    distance is computed and does not exceed the target. *)
Definition keeps_expanding (p2 : Point) : bool :=
  negb (passes_limit p2) &&
  match VincentyDistance p1 p2 with
  | Ok d => negb (fgt d targetDistance)
  | Err _ => false
  end.

(** From the loop state [(p2, inc)]: [k] iterations go round the loop and
    the next one steps the coordinate past the limit. *)
Fixpoint hits_limit (k : nat) (p2 : Point) (inc : float) : bool :=
  let p2 := store adjust p2 (load adjust p2 + inc * dir)%float in
  match k with
  | O => passes_limit p2
  | S k' => keeps_expanding p2 && hits_limit k' p2 (inc * 2)%float
  end.

End Find.

(** The four searches of [findBoundingBox], in the order of the source. *)
Inductive cardinal := East | North | West | South.

Definition card_dir (c : cardinal) : direction :=
  match c with East => east | North => north | West => west | South => south end.

Definition card_field (c : cardinal) : field :=
  match c with East | West => FLong | North | South => FLat end.

Definition card_limit (c : cardinal) : float :=
  match c with
  | East => 180%float | North => 90%float
  | West => (-180)%float | South => (-90)%float
  end.

(** [x := p; err = find(p, &x, dir, &x.F, limit, size)] *)
Definition search (fuel : nat) (p : Point) (size : float) (c : cardinal)
  : option (Point * option find_error) :=
  find p (card_dir c) (card_field c) (card_limit c) size fuel p.

(** The search [c] returns without an error. *)
Definition succeeds (fuel : nat) (p : Point) (size : float) (c : cardinal)
  : bool :=
  match search fuel p size c with
  | Some (_, None) => true
  | _ => false
  end.

(** The search [c] steps past its limit in iteration [k] of its expansion. *)
Definition search_hits_limit (p : Point) (size : float) (c : cardinal)
    (k : nat) : bool :=
  hits_limit p (card_dir c) (card_field c) (card_limit c)
    size k p 1e-6%float.

(** The searches that run before [c]. *)
Definition earlier (c : cardinal) : list cardinal :=
  match c with
  | East => []
  | North => [East]
  | West => [East; North]
  | South => [East; North; West]
  end.

(** [findBoundingBox]: [(ne, sw)] or the error of the first search that
    fails. *)
Definition findBoundingBox (fuel : nat) (p : Point) (size : float)
  : option (result find_error (Point * Point)) :=
  match search fuel p size East with
  | None => None
  | Some (_, Some err) => Some (Err err)
  | Some (e, None) =>
  match search fuel p size North with
  | None => None
  | Some (_, Some err) => Some (Err err)
  | Some (n, None) =>
  match search fuel p size West with
  | None => None
  | Some (_, Some err) => Some (Err err)
  | Some (w, None) =>
  match search fuel p size South with
  | None => None
  | Some (_, Some err) => Some (Err err)
  | Some (s, None) =>
      Some (Ok (mkPoint (Lat n) (Long e), mkPoint (Lat s) (Long w)))
  end end end end.

End Solver.

End Box.

(** ** The threshold flag: [parseDistance] *)

Module Units.

Open Scope string_scope.

(** [strings.HasSuffix(s, suffix)]:
    [len(s) >= len(suffix) && s[len(s)-len(suffix):] == suffix] *)
Definition HasSuffix (s suffix : string) : bool :=
  (String.length suffix <=? String.length s)%nat &&
  String.eqb
    (substring (String.length s - String.length suffix)
               (String.length suffix) s)
    suffix.

(** [strings.TrimSuffix(s, suffix)] *)
Definition TrimSuffix (s suffix : string) : string :=
  if HasSuffix s suffix
  then substring 0 (String.length s - String.length suffix) s
  else s.

(** The table [units] of [parseDistance], in its order. *)
Definition units : list (string * float) :=
  [ ("km", 1%float); ("ft", 3280.84%float); ("mi", 0.621371%float);
    ("m", 1000%float) ].

(** The two errors of [parseDistance]. *)
Inductive parse_error :=
| ErrParsingDistance (dist : string) (e : string)
    (* "Error parsing distance %q: %s" *)
| ErrNoRecognizedUnits (dist : string).
    (* "No recognized units in distance %q" *)

Section Parse.

(** [strings.ToLower], [strings.TrimSpace] and [strconv.ParseFloat(_, 64)]. *)
Variables (ToLower TrimSpace : string -> string)
          (ParseFloat : string -> result string float).

(** The loop [for _, unit := range units] over what is left of the table.
    On success the value and the argument of the one [log.Printf]. *)
Fixpoint parse_units (us : list (string * float)) (dist : string)
  : result parse_error float :=
  match us with
  | [] => Err (ErrNoRecognizedUnits dist)
  | (abbrev, perKM) :: us' =>
      if HasSuffix dist abbrev then
        let dist := TrimSpace (TrimSuffix dist abbrev) in
        match ParseFloat dist with
        | Err e => Err (ErrParsingDistance dist e)
        | Ok count => Ok (count / perKM)%float
        end
      else parse_units us' dist
  end.

(** [parseDistance].  On success it logs "Using distance %.3fkm" with the
    value it returns; [main] below emits that line. *)
Definition parseDistance (dist : string) : result parse_error float :=
  parse_units units (ToLower (TrimSpace dist)).

(** The strings the flag documents: once trimmed and lowercased, a number
    [strconv.ParseFloat] accepts, white space around it allowed, followed by
    a unit of the table; [km] is the number converted to kilometers. *)
Definition recognized (dist : string) (km : float) : Prop :=
  exists (number abbrev : string) (perKM count : float),
    In (abbrev, perKM) units /\
    ToLower (TrimSpace dist) = number ++ abbrev /\
    ParseFloat (TrimSpace number) = Ok count /\
    km = (count / perKM)%float.

End Parse.

(** *** Instances for byte strings that hold ASCII only *)

Definition is_upper (c : ascii) : bool :=
  let n := nat_of_ascii c in ((65 <=? n) && (n <=? 90))%nat.

(** [strings.ToLower] on ASCII. *)
Fixpoint ascii_ToLower (s : string) : string :=
  match s with
  | EmptyString => EmptyString
  | String c s' =>
      String (if is_upper c then ascii_of_nat (nat_of_ascii c + 32) else c)
             (ascii_ToLower s')
  end.

(** The ASCII white space of [strings.TrimSpace]: tab, newline, vertical
    tab, form feed, carriage return and space. *)
Definition is_space (c : ascii) : bool :=
  let n := nat_of_ascii c in (((9 <=? n) && (n <=? 13)) || (n =? 32))%nat.

Fixpoint trim_left (s : string) : string :=
  match s with
  | EmptyString => EmptyString
  | String c s' => if is_space c then trim_left s' else s
  end.

Fixpoint trim_right (s : string) : string :=
  match s with
  | EmptyString => EmptyString
  | String c s' =>
      match trim_right s' with
      | EmptyString => if is_space c then EmptyString else String c EmptyString
      | t => String c t
      end
  end.

(** [strings.TrimSpace] on ASCII. *)
Definition ascii_TrimSpace (s : string) : string := trim_right (trim_left s).

Definition digit_value (c : ascii) : option Z :=
  let n := nat_of_ascii c in
  if ((48 <=? n) && (n <=? 57))%nat then Some (Z.of_nat n - 48)%Z else None.

(** The value of a string of decimal digits, [None] on any other byte. *)
Fixpoint digits_value (acc : Z) (s : string) : option Z :=
  match s with
  | EmptyString => Some acc
  | String c s' =>
      match digit_value c with
      | Some d => digits_value (10 * acc + d)%Z s'
      | None => None
      end
  end.

(** [strconv.ParseFloat] restricted to unsigned decimal integers below
    2^53, which convert exactly; every other string is rejected. *)
Definition digits_ParseFloat (s : string) : result string float :=
  match s with
  | EmptyString => Err "invalid syntax"
  | _ =>
      match digits_value 0%Z s with
      | Some z =>
          if (z <? 2 ^ 53)%Z then Ok (PrimFloat.of_uint63 (Uint63.of_Z z))
          else Err "invalid syntax"
      | None => Err "invalid syntax"
      end
  end.

End Units.

(** ** What a run of [main] prints and how it ends *)

(** A visit, as the "Visited for ..." line reports it. *)
Record VisitRecord := mkVisit {
  visitStart : Time;
  visitEnd : Time;
  visitTotalInside : Z;
  visitMaxConsecutiveInside : Z
}.

(** The calls of [log.Printf], with their arguments. *)
Inductive log_line :=
| LogResolved (fullAddress : string)   (* "Resolved to full address %q" *)
| LogUsingTarget (target : Point)      (* "Using target (%.6f, %.6f)" *)
| LogUsingDistance (distKM : float)    (* "Using distance %.3fkm" *)
| LogBoundingBox (ne sw : Point)       (* "Bounding box: %v %v" *)
| LogLoaded (n : nat)                  (* "Loaded %d pinpoints" *)
| LogSkipping (loc : ConvertedLocation) (e : string) (* "Skipping %v: %s" *)
| LogDistance (d : float) (t : Time)   (* "Distance %.0fm at %s" *)
| LogVisited (v : VisitRecord)         (* "Visited for %s starting at ..." *)
| LogDropped (v : VisitRecord).        (* "Dropped visit for %s ..." *)

(** The calls of [log.Fatalf]. *)
Inductive fatal :=
| FatalGeocoding (e : string)          (* "Error geocoding address: %s" *)
| FatalDistance (e : Units.parse_error)              (* "%s" *)
| FatalBoundingBox (e : Box.find_error) (* "Error finding bounding box: %s" *)
| FatalOpenCache (e : string)          (* "Error opening cache file: %s" *)
| FatalLoadCache (e : string)          (* "Error loading cache file: %s" *)
| FatalOpenTakeout (e : string)        (* "Error opening takeout file: %s" *)
| FatalLoadTakeout (e : string)        (* "Error loading takeout file: %s" *)
| FatalParsingTime (secondsString : string)   (* "Error parsing time %q" *)
| FatalCreateCache (e : string) (* "Error opening cache file for write: %s" *)
| FatalWriteCache (e : string).        (* "Error writing cache file: %s" *)

(** The run-time panics the modelled statements can raise. *)
Inductive panic :=
| SliceBoundsOutOfRange    (* [s[:len(s)-3]] with [len(s) < 3] *)
| NilPointerDereference    (* a field of a nil [*Location] *)
| IndexOutOfRange.         (* [points[idx]] outside the slice *)

Inductive outcome (A : Type) : Type :=
| Returned (a : A)
| Fatal (f : fatal)        (* [log.Fatalf]: the process exits with status 1 *)
| Panicked (p : panic)
| Exited (code : Z)        (* [os.Exit] *)
| Running.                 (* a loop of [find] has not finished yet *)
Arguments Returned {A} a.
Arguments Fatal {A} f.
Arguments Panicked {A} p.
Arguments Exited {A} code.
Arguments Running {A}.

(** A computation that logs and then ends in an [outcome]. *)
Definition M (A : Type) : Type := list log_line * outcome A.

Definition ret {A} (a : A) : M A := ([], Returned a).

Definition bind {A B} (m : M A) (f : A -> M B) : M B :=
  match m with
  | (l, Returned a) => let (l', r) := f a in (l ++ l', r)
  | (l, Fatal e) => (l, Fatal e)
  | (l, Panicked p) => (l, Panicked p)
  | (l, Exited c) => (l, Exited c)
  | (l, Running) => (l, Running)
  end.

Definition logPrintf (line : log_line) : M unit := ([line], Returned tt).
Definition logFatalf {A} (f : fatal) : M A := ([], Fatal f).
Definition raise {A} (p : panic) : M A := ([], Panicked p).

(** [if *debug { log.Printf(...) }] *)
Definition debugPrintf (debug : bool) (line : log_line) : M unit :=
  if debug then logPrintf line else ret tt.

#[global] Instance M_ret : MRet M := @ret.
#[global] Instance M_bind : MBind M := fun A B f m => bind m f.

(** The visits a log reports. *)
Definition visits (l : list log_line) : list VisitRecord :=
  omap (fun line => match line with LogVisited v => Some v | _ => None end) l.

(** The lines that report the end of a run. *)
Definition is_closure_line (line : log_line) : bool :=
  match line with
  | LogVisited _ | LogDropped _ => true
  | _ => false
  end.

(** The lines the scan loop prints. *)
Definition is_scan_line (line : log_line) : bool :=
  match line with
  | LogSkipping _ _ | LogDistance _ _ | LogVisited _ | LogDropped _ => true
  | _ => false
  end.

(** ** Decoding the takeout file *)

Module Decode.

(** Go's conversion [float64(x)] of an [int64]: the nearest float, ties to
    even. *)
Definition float64_of_int64 (z : Z) : float :=
  if z =? - 2 ^ 63 then (-9223372036854775808)%float
  else if z <? 0 then (- PrimFloat.of_uint63 (Uint63.of_Z (- z)))%float
  else PrimFloat.of_uint63 (Uint63.of_Z z).

(** [location.Timestamp[:len(location.Timestamp)-3]] *)
Definition secondsString (timestamp : string) : M string :=
  if (String.length timestamp <? 3)%nat then raise SliceBoundsOutOfRange
  else ret (substring 0 (String.length timestamp - 3) timestamp).

Section Convert.

(** [strconv.ParseInt(_, 10, 64)] *)
Variable ParseInt : string -> result string Z.

(** The body of [for idx, location := range history.Pinpoints].  An element
    of [Pinpoints] is a [*Location]: [None] is nil. *)
Definition convert (location : option Location) : M ConvertedLocation :=
  match location with
  | None => raise NilPointerDereference
  | Some location =>
      s ← secondsString (timestampMs location);
      match ParseInt s with
      | Err _ => logFatalf (FatalParsingTime s)
      | Ok seconds =>
          ret (mkConverted
                 (float64_of_int64 (latitudeE7 location) / 1e7)%float
                 (float64_of_int64 (longitudeE7 location) / 1e7)%float
                 seconds)
      end
  end.

(** The loop: [converted[idx]] for every [idx], in order. *)
Fixpoint convertAll (pinpoints : list (option Location))
  : M (list ConvertedLocation) :=
  match pinpoints with
  | [] => ret []
  | location :: rest =>
      c ← convert location;
      cs ← convertAll rest;
      mret (c :: cs)
  end.

End Convert.

(** A present record whose timestamp has the three bytes the slice
    expression removes. *)
Definition sliceable (location : option Location) : bool :=
  match location with
  | Some location => (3 <=? String.length (timestampMs location))%nat
  | None => false
  end.

(** The record is converted. *)
Definition converts (ParseInt : string -> result string Z)
    (location : option Location) : bool :=
  match convert ParseInt location with
  | (_, Returned _) => true
  | _ => false
  end.

(** [strconv.ParseInt(_, 10, 64)] on an optional sign and decimal digits. *)
Definition decimal_ParseInt (s : string) : result string Z :=
  let parse (neg : bool) (digits : string) : result string Z :=
    match digits with
    | EmptyString => Err "invalid syntax"%string
    | _ =>
        match Units.digits_value 0 digits with
        | None => Err "invalid syntax"%string
        | Some z =>
            let v := if neg then - z else z in
            if (- 2 ^ 63 <=? v) && (v <? 2 ^ 63) then Ok v
            else Err "value out of range"%string
        end
    end in
  match s with
  | String "+"%char s' => parse false s'
  | String "-"%char s' => parse true s'
  | _ => parse false s
  end.

End Decode.

(** ** The visit scan of [main] *)

Module Visits.

(** [minPinpointCount := 10] *)
Definition minPinpointCount : Z := 10.

(** The variables the loop updates. *)
Record counters := mkCounters {
  startTime : Time;
  endTime : Time;
  totalInsideCount : Z;
  consecutiveInsideCount : Z;
  maxConsecutiveInsideCount : Z;
  consecutiveOutsideCount : Z
}.

(** [var startTime, endTime time.Time] and the four counters at 0. *)
Definition initial : counters := mkCounters zeroTime zeroTime 0 0 0 0.

Definition record_of (st : counters) : VisitRecord :=
  mkVisit (startTime st) (endTime st)
          (totalInsideCount st) (maxConsecutiveInsideCount st).

Section Scan.

Variable VincentyDistance : Point -> Point -> result string float.
Variables (debug : bool) (target : Point) (threshholdKm : float).
Variable points : list ConvertedLocation.

(** [points[idx]], which panics outside [0 .. len(points)-1]. *)
Definition at_index (idx : Z) : M ConvertedLocation :=
  if idx <? 0 then raise IndexOutOfRange
  else match points !! Z.to_nat idx with
       | Some loc => mret loc
       | None => raise IndexOutOfRange
       end.

Section Loop.

(** The map [candidates] and [indexes[len(indexes)-1]]. *)
Variables (candidates : gset Z) (lastIndex : Z).

(** [d := threshholdKm * 2], replaced for a candidate by the distance to
    the target, or the error of that computation. *)
Definition distance_at (idx : Z) (loc : ConvertedLocation)
  : result string float :=
  if bool_decide (idx ∈ candidates)
  then VincentyDistance (mkPoint (Latitude loc) (Longitude loc)) target
  else Ok (threshholdKm * 2)%float.

(** The branch [d < threshholdKm], after its debug line. *)
Definition inside (loc : ConvertedLocation) (st : counters) : counters :=
  let start := if totalInsideCount st =? 0 then LocTime loc else startTime st in
  let consecutive := consecutiveInsideCount st + 1 in
  mkCounters start (LocTime loc) (totalInsideCount st + 1) consecutive
    (if maxConsecutiveInsideCount st <? consecutive then consecutive
     else maxConsecutiveInsideCount st)
    0.

(** The [else] branch. *)
Definition outside (st : counters) : counters :=
  mkCounters (startTime st) (endTime st) (totalInsideCount st) 0
    (maxConsecutiveInsideCount st) (consecutiveOutsideCount st + 1).

(** The condition of the last [if] of the body. *)
Definition closes (idx : Z) (st : counters) : bool :=
  (minPinpointCount <=? consecutiveOutsideCount st) || (idx =? lastIndex).

(** The body of that [if]. *)
Definition close_run (st : counters) : M counters :=
  (if minPinpointCount <=? maxConsecutiveInsideCount st
   then logPrintf (LogVisited (record_of st))
   else if 0 <? totalInsideCount st
        then debugPrintf debug (LogDropped (record_of st))
        else mret tt);;
  mret (mkCounters (startTime st) (endTime st) 0
          (consecutiveInsideCount st) 0 (consecutiveOutsideCount st)).

(** The last [if] of the body. *)
Definition finish (idx : Z) (st : counters) : M counters :=
  if closes idx st then close_run st else mret st.

(** One iteration of the loop, [continue] included. *)
Definition body (idx : Z) (st : counters) : M counters :=
  loc ← at_index idx;
  match distance_at idx loc with
  | Err e => debugPrintf debug (LogSkipping loc e);; mret st
  | Ok d =>
      st ← (if (d <? threshholdKm)%float
            then debugPrintf debug (LogDistance d (LocTime loc));;
                 mret (inside loc st)
            else mret (outside st));
      finish idx st
  end.

(** [n] iterations, from [idx] on. *)
Fixpoint iterate (n : nat) (idx : Z) (st : counters) : M counters :=
  match n with
  | O => mret st
  | S n' => st ← body idx st; iterate n' (idx + 1) st
  end.

(** [for idx := first; idx <= lastIndex; idx++] *)
Definition scan (first : Z) (st : counters) : M counters :=
  iterate (Z.to_nat (lastIndex - first + 1)) first st.

(** How the loop body treats an index. *)
Definition is_inside (idx : Z) : bool :=
  match points !! Z.to_nat idx with
  | Some loc =>
      (0 <=? idx) &&
      match distance_at idx loc with
      | Ok d => (d <? threshholdKm)%float
      | Err _ => false
      end
  | None => false
  end.

Definition is_outside (idx : Z) : bool :=
  match points !! Z.to_nat idx with
  | Some loc =>
      (0 <=? idx) &&
      match distance_at idx loc with
      | Ok d => negb (d <? threshholdKm)%float
      | Err _ => false
      end
  | None => false
  end.

Definition is_skipped (idx : Z) : bool :=
  match points !! Z.to_nat idx with
  | Some loc =>
      (0 <=? idx) &&
      match distance_at idx loc with
      | Ok _ => false
      | Err _ => true
      end
  | None => false
  end.

(** [n] outside points in a row. *)
Definition outsides (n : nat) (st : counters) : counters :=
  Nat.iter n outside st.

(** [f] holds of the [n] indices from [idx] on. *)
Fixpoint all_from (f : Z -> bool) (n : nat) (idx : Z) : bool :=
  match n with
  | O => true
  | S n' => f idx && all_from f n' (idx + 1)
  end.

(** All four counters lie between 0 and [B]. *)
Definition bounded (B : Z) (st : counters) : Prop :=
  0 <= totalInsideCount st <= B /\
  0 <= consecutiveInsideCount st <= B /\
  0 <= maxConsecutiveInsideCount st <= B /\
  0 <= consecutiveOutsideCount st <= B.

End Loop.

(** [sort.Ints] *)
Definition sortInts (indexes : list Z) : list Z := merge_sort Z.le indexes.

(** Lines 339 to 393 of [main]: from the result of the range query to the
    end. *)
Definition detect (indexes : list Z) : M unit :=
  match indexes with
  | [] => mret tt
  | _ =>
      let candidates : gset Z := list_to_set indexes in
      let indexes := sortInts indexes in
      let first := hd 0 indexes in
      let lastIndex := List.last indexes 0 in
      scan candidates lastIndex first initial;;
      mret tt
  end.

End Scan.

End Visits.

(** ** [main] *)

Module Main.

(** The command-line flags. *)
Record Flags := mkFlags {
  debug : bool;
  latitude : float;
  longitude : float;
  cacheData : bool;
  address : string;
  threshold : string
}.

(** What opening and decoding [takeoutFile + ".dat"] gives. *)
Inductive cache_read :=
| CacheNotExist
| CacheOpenError (e : string)
| CacheDecodeError (e : string)
| CacheDecoded (converted : list ConvertedLocation).

(** What opening and decoding the takeout file gives. *)
Inductive takeout_read :=
| TakeoutOpenError (e : string)
| TakeoutDecodeError (e : string)
| TakeoutDecoded (pinpoints : list (option Location)).

(** What creating and writing the cache file gives. *)
Inductive cache_write :=
| CacheWritten
| CacheCreateError (e : string)
| CacheEncodeError (e : string).

(** The outside world of one run: the arguments, the geocoding service
    behind [getLocation] (the formatted address and the point, or the error)
    and the two files. *)
Record World := mkWorld {
  args : list string;
  getLocation : string -> result string (string * Point);
  cacheFile : cache_read;
  takeoutFile : takeout_read;
  cacheWrite : cache_write
}.

Section Program.

Variable VincentyDistance : Point -> Point -> result string float.
Variables (ToLower TrimSpace : string -> string)
          (ParseFloat : string -> result string float)
          (ParseInt : string -> result string Z).

(** [kdbush.NewBush(points, 64).Range(minX, minY, maxX, maxY)] *)
Variable bushRange :
  list ConvertedLocation -> float -> float -> float -> float -> list Z.

Variables (flags : Flags) (world : World).

(** The target: the flags, or the geocoded address. *)
Definition resolveTarget : M Point :=
  if String.eqb (address flags) ""
  then mret (mkPoint (latitude flags) (longitude flags))
  else match getLocation world (address flags) with
       | Err e => logFatalf (FatalGeocoding e)
       | Ok (full, p) => logPrintf (LogResolved full);; mret p
       end.

(** Lines 272 to 329: the cache, else the takeout file, then the cache
    again. *)
Definition loadConverted : M (list ConvertedLocation) :=
  cached ← (if cacheData flags then
              match cacheFile world with
              | CacheNotExist => mret None
              | CacheOpenError e => logFatalf (FatalOpenCache e)
              | CacheDecodeError e => logFatalf (FatalLoadCache e)
              | CacheDecoded converted => mret (Some converted)
              end
            else mret None);
  match cached with
  | Some converted => mret converted
  | None =>
      converted ← match takeoutFile world with
                  | TakeoutOpenError e => logFatalf (FatalOpenTakeout e)
                  | TakeoutDecodeError e => logFatalf (FatalLoadTakeout e)
                  | TakeoutDecoded pinpoints =>
                      Decode.convertAll ParseInt pinpoints
                  end;
      (if cacheData flags && (0 <? length converted)%nat then
         match cacheWrite world with
         | CacheWritten => mret tt
         | CacheCreateError e => logFatalf (FatalCreateCache e)
         | CacheEncodeError e => logFatalf (FatalWriteCache e)
         end
       else mret tt);;
      mret converted
  end.

(** Lines 331 to 393: the index, the range query and the scan. *)
Definition search (target : Point) (threshholdKm : float) (ne sw : Point)
    (converted : list ConvertedLocation) : M unit :=
  let points := converted in
  logPrintf (LogLoaded (length points));;
  let indexes := bushRange points (Lat sw) (Long sw) (Lat ne) (Long ne) in
  Visits.detect VincentyDistance (debug flags) target threshholdKm points
    indexes.

Definition main (fuel : nat) : M unit :=
  if negb (length (args world) =? 1)%nat then ([], Exited 2)
  else
    target ← resolveTarget;
    logPrintf (LogUsingTarget target);;
    threshholdKm ←
      match Units.parseDistance ToLower TrimSpace ParseFloat (threshold flags) with
      | Err e => logFatalf (FatalDistance e)
      | Ok km => logPrintf (LogUsingDistance km);; mret km
      end;
    box ←
      match Box.findBoundingBox VincentyDistance fuel target
              (threshholdKm * 2)%float with
      | None => ([], Running)
      | Some (Err e) => logFatalf (FatalBoundingBox e)
      | Some (Ok box) => mret box
      end;
    let '(ne, sw) := box in
    debugPrintf (debug flags) (LogBoundingBox ne sw);;
    converted ← loadConverted;
    search target threshholdKm ne sw converted.

End Program.

(** A range query by linear search: the indices, in increasing order, of
    the points whose coordinates lie in the rectangle. *)
Definition linearRange (points : list ConvertedLocation)
    (minX minY maxX maxY : float) : list Z :=
  omap (fun '(i, loc) =>
          if ((minX <=? Latitude loc) && (Latitude loc <=? maxX) &&
              (minY <=? Longitude loc) && (Longitude loc <=? maxY))%float
          then Some (Z.of_nat i) else None)
       (imap pair points).

End Main.

(** ** Instances used to run the program *)

Module Instances.

Definition fabs (x : float) : float :=
  if (x <? 0)%float then (- x)%float else x.

(** A stand-in for [geodist.VincentyDistance] on a flat grid of 111 km per
    degree.  Like the original it reports an error for nearly antipodal
    points: here, when the longitudes differ by more than 179 degrees and
    the latitudes are within a degree of opposite. *)
Definition gridDistance (p q : Point) : result string float :=
  let dlong := fabs (Long p - Long q)%float in
  let dlat := fabs (Lat p - Lat q)%float in
  if ((179 <? dlong) && (fabs (Lat p + Lat q) <? 1))%float
  then Err "failed to converge"%string
  else Ok (111 * (dlat + dlong))%float.

Definition flags0 : Main.Flags :=
  Main.mkFlags false 36.461755%float (-116.866612)%float true "" "50m".

(** The default target of the flags. *)
Definition target0 : Point := mkPoint 36.461755%float (-116.866612)%float.

(** A target a thousandth of a degree from the north pole, with a threshold
    of 100 km. *)
Definition poleTarget : Point := mkPoint 89.999%float 0%float.

Definition poleFlags : Main.Flags :=
  Main.mkFlags false 89.999%float 0%float true "" "100km".

(** One argument, no cache file, an export without locations. *)
Definition world0 : Main.World :=
  Main.mkWorld ["Location History.json"%string]
    (fun _ => Err "no network"%string)
    Main.CacheNotExist (Main.TakeoutDecoded []) Main.CacheWritten.

(** [n] points at one place, at one second intervals from [t]. *)
Definition stay (lat long : float) (t : Time) (n : nat)
  : list ConvertedLocation :=
  map (fun i => mkConverted lat long (t + Z.of_nat i)) (seq 0 n).

Definition origin : Point := mkPoint 0%float 0%float.

(** Ten points at the origin, then a point on the antimeridian, whose
    distance from the origin is not computed. *)
Definition skippedLast : list ConvertedLocation :=
  stay 0%float 0%float 1000 10 ++ [mkConverted 0%float 180%float 1010].

(** The same ten points, then a point one degree east. *)
Definition computedLast : list ConvertedLocation :=
  stay 0%float 0%float 1000 10 ++ [mkConverted 0%float 1%float 1010].

(** Twelve points at the origin, nine (or ten) about 157 km away, then
    points at the origin again. *)
Definition gapOfNine : list ConvertedLocation :=
  stay 0%float 0%float 1000 12 ++ stay 1%float 1%float 1012 9
    ++ stay 0%float 0%float 1021 5.

Definition gapOfTen : list ConvertedLocation :=
  stay 0%float 0%float 1000 12 ++ stay 1%float 1%float 1012 10
    ++ stay 0%float 0%float 1022 15.

(** The counters after the first twelve points of these sequences. *)
Definition openRun : Visits.counters :=
  Visits.mkCounters 1000 1011 12 12 12 0.

(** The counters after the first ten points of [computedLast]. *)
Definition tenInside : Visits.counters :=
  Visits.mkCounters 1000 1009 10 10 10 0.

(** Two records of an export: a millisecond timestamp, and one cut short. *)
Definition goodRecord : Location :=
  mkLocation 364617550 (-1168666120) "1500000000123".
Definition shortRecord : Location := mkLocation 364617550 (-1168666120) "15".

End Instances.

(** ** Predicates used to state the properties of the scan and the solver *)

Module Facts.

(** The coordinate a search leaves alone. *)
Definition other (f : Box.field) : Box.field :=
  match f with Box.FLat => Box.FLong | Box.FLong => Box.FLat end.

(** Halving the double of [x] gives [x] back: so it is for every float
    whose double does not overflow. *)
Definition exact_half (x : float) : Prop := ((x + x) / 2)%float = x.

(** What relates the counters of the scan to each other between two
    iterations. *)
Definition run_inv (points : list ConvertedLocation) (st : Visits.counters)
  : Prop :=
  0 <= Visits.consecutiveInsideCount st <= Visits.maxConsecutiveInsideCount st /\
  Visits.maxConsecutiveInsideCount st <= Visits.totalInsideCount st /\
  (0 < Visits.totalInsideCount st ->
   In (Visits.startTime st) (map LocTime points) /\
   In (Visits.endTime st) (map LocTime points)).

(** A visit with at least the minimum run of consecutive points, no more of
    them than points in all, that starts and ends at times of the point
    sequence. *)
Definition sound_visit (points : list ConvertedLocation) (v : VisitRecord)
  : Prop :=
  Visits.minPinpointCount <= visitMaxConsecutiveInside v /\
  visitMaxConsecutiveInside v <= visitTotalInside v /\
  In (visitStart v) (map LocTime points) /\
  In (visitEnd v) (map LocTime points).

(** A visit with at least the minimum run of consecutive points, no more
    of them than points in all. *)
Definition qualifies (v : VisitRecord) : Prop :=
  Visits.minPinpointCount <= visitMaxConsecutiveInside v /\
  visitMaxConsecutiveInside v <= visitTotalInside v.

(** A computation that prints no visit and does not panic at an index
    expression. *)
Definition quiet {A} (m : M A) : Prop :=
  visits m.1 = [] /\ m.2 <> Panicked IndexOutOfRange.

(** The run ends in the scan of the candidates of some box, after lines
    that report no visit. *)
Definition scans
    (VincentyDistance : Point -> Point -> result string float)
    (bushRange :
       list ConvertedLocation -> float -> float -> float -> float -> list Z)
    (debug : bool) (r : M unit) : Prop :=
  exists (target : Point) (km : float) (ne sw : Point)
         (converted : list ConvertedLocation) (l : list log_line),
    visits l = [] /\
    let indexes := bushRange converted (Lat sw) (Long sw) (Lat ne) (Long ne) in
    r = (l ++ (Visits.detect VincentyDistance debug target km converted
                 indexes).1,
         (Visits.detect VincentyDistance debug target km converted
            indexes).2).

(** The time of the point at [idx]. *)
Definition time_at (points : list ConvertedLocation) (idx : Z) : Time :=
  match points !! Z.to_nat idx with
  | Some loc => LocTime loc
  | None => zeroTime
  end.

(** The index is one of the slice. *)
Definition in_range (points : list ConvertedLocation) (idx : Z) : bool :=
  (0 <=? idx) && (idx <? Z.of_nat (length points)).

(** The counters after [n] points inside in a row, the first at [idx],
    none of them followed by a closure. *)
Definition after_insides (points : list ConvertedLocation) (n : nat)
    (idx : Z) (st : Visits.counters) : Visits.counters :=
  match n with
  | O => st
  | S _ =>
      Visits.mkCounters
        (if Visits.totalInsideCount st =? 0 then time_at points idx
         else Visits.startTime st)
        (time_at points (idx + Z.of_nat n - 1))
        (Visits.totalInsideCount st + Z.of_nat n)
        (Visits.consecutiveInsideCount st + Z.of_nat n)
        (Z.max (Visits.maxConsecutiveInsideCount st)
               (Visits.consecutiveInsideCount st + Z.of_nat n))
        0
  end.

End Facts.

(** ** [getLocation] *)

Module Geocode.

(** [GoogleResult], with [Geometry.Location] as a point. *)
Record GoogleResult := mkGoogleResult {
  formatted_address : string;
  geometry_location : Point
}.

(** [GoogleResponse] *)
Record GoogleResponse := mkGoogleResponse {
  results : list GoogleResult;
  status : string;
  error_message : string
}.

(** What [getLocation] looks at in the response of [http.Get]: the status
    code, what [ioutil.ReadAll] gives on the body (the bytes read and the
    error, if any), and what decoding the body as JSON into [gr] gives.
    [gr] is a pointer: the JSON value null sets it to nil, [None] here. *)
Record Response := mkResponse {
  StatusCode : Z;
  readAll : string * option string;
  decoded : result string (option GoogleResponse)
}.

(** The errors [getLocation] builds with [fmt.Errorf]. *)
Inductive geocode_error :=
| ErrFetching (e : string)
    (* "Error fetching Google geocode results: %s" *)
| ErrStatusCode (code : Z) (body : string)
    (* "Got code %d from Geocoding API. Response: %s" *)
| ErrDecoding (e : string)
    (* "Error decoding response from Google Geocoding API: %s" *)
| ErrGeocodingAPI (message : string)
    (* "Error from Google Geocoding API: %s" *)
| ErrNoResults (address : string).
    (* "No results from Google Geocoding API for %q" *)

(** The lines [getLocation] logs. *)
Inductive geocode_line :=
| LogReadingBody (e : string)  (* "Error reading error response body: %s" *)
| LogResolvedAddress (full : string). (* "Resolved to full address %q" *)

(** [getLocation], from the result of [http.Get(geocodeURL)] on. *)
Definition getLocation (address : string) (got : result string Response)
  : list geocode_line * outcome (result geocode_error Point) :=
  match got with
  | Err e => ([], Returned (Err (ErrFetching e)))
  | Ok response =>
      if negb (StatusCode response =? 200) then
        let '(body, err) := readAll response in
        (match err with Some e => [LogReadingBody e] | None => [] end,
         Returned (Err (ErrStatusCode (StatusCode response) body)))
      else
        match decoded response with
        | Err e => ([], Returned (Err (ErrDecoding e)))
        | Ok None => ([], Panicked NilPointerDereference)
        | Ok (Some gr) =>
            if negb (String.eqb (status gr) "OK")
            then ([], Returned (Err (ErrGeocodingAPI (error_message gr))))
            else
              match results gr with
              | [] => ([], Returned (Err (ErrNoResults address)))
              | first :: _ =>
                  ([LogResolvedAddress (formatted_address first)],
                   Returned (Ok (geometry_location first)))
              end
        end
  end.

End Geocode.

(** ** More inputs to run the program on *)

Module Samples.

(** Twelve records of an export at the default target, one second apart. *)
Definition pinpoints : list (option Location) :=
  map (fun timestamp => Some (mkLocation 364617550 (-1168666120) timestamp))
      ["1500000000000"; "1500000001000"; "1500000002000"; "1500000003000";
       "1500000004000"; "1500000005000"; "1500000006000"; "1500000007000";
       "1500000008000"; "1500000009000"; "1500000010000"; "1500000011000"]%string.

(** One argument, no cache file yet, the export above. *)
Definition world : Main.World :=
  Main.mkWorld ["Location History.json"%string]
    (fun _ => Err "no network"%string)
    Main.CacheNotExist (Main.TakeoutDecoded pinpoints) Main.CacheWritten.

(** A threshold without a unit. *)
Definition flagsNoUnit : Main.Flags :=
  Main.mkFlags false 36.461755%float (-116.866612)%float true "" "50".

End Samples.

(** * Properties *)

(** ** Computations in [M] *)

(** Unfolds the operations of [M]. *)
Ltac unfold_M :=
  unfold debugPrintf, logPrintf, logFatalf, raise, mbind, M_bind, bind,
    mret, M_ret, ret in *.

Lemma M_left_id {A B} (a : A) (f : A -> M B) :
  ((([], Returned a) : M A) ≫= f) = f a.
Proof. unfold_M. now destruct (f a). Qed.

Lemma M_right_id {A} (m : M A) : (m ≫= mret) = m.
Proof.
  unfold_M. destruct m as [l [a| | | |]]; try reflexivity.
  now rewrite app_nil_r.
Qed.

Lemma M_assoc {A B C} (m : M A) (f : A -> M B) (g : B -> M C) :
  ((m ≫= f) ≫= g) = (m ≫= fun a => f a ≫= g).
Proof.
  unfold_M. destruct m as [l [a| | | |]]; try reflexivity.
  destruct (f a) as [l' [b| | | |]]; try reflexivity.
  destruct (g b) as [l'' r]. now rewrite app_assoc.
Qed.

Lemma M_bind_ext {A B} (m : M A) (f g : A -> M B) :
  (forall a, f a = g a) -> (m ≫= f) = (m ≫= g).
Proof.
  intros Hfg. unfold_M. destruct m as [l [a| | | |]]; try reflexivity.
  now rewrite Hfg.
Qed.

Lemma M_bind_returned {A B} (l : list log_line) (a : A) (f : A -> M B) :
  (((l, Returned a) : M A) ≫= f) = (l ++ (f a).1, (f a).2).
Proof. unfold_M. now destruct (f a). Qed.

Lemma debugPrintf_then {A} (debug : bool) (line : log_line) (a : A) :
  (debugPrintf debug line ≫= fun _ => mret a)
  = ((if debug then [line] else [], Returned a) : M A).
Proof. unfold_M. now destruct debug. Qed.

Lemma M_ret_bind {A B} (a : A) (f : A -> M B) : (mret a ≫= f) = f a.
Proof. apply M_left_id. Qed.

(** ** The threshold flag *)

Section StringFacts.

Open Scope string_scope.

Lemma append_nil_l (s : string) : "" ++ s = s.
Proof. reflexivity. Qed.

Lemma append_cons (c : ascii) (s1 s2 : string) :
  String c s1 ++ s2 = String c (s1 ++ s2).
Proof. reflexivity. Qed.

Lemma length_append (s1 s2 : string) :
  String.length (s1 ++ s2) = (String.length s1 + String.length s2)%nat.
Proof.
  induction s1 as [|c s1 IH]; [reflexivity|].
  rewrite append_cons. simpl. congruence.
Qed.

Lemma append_assoc (s1 s2 s3 : string) : (s1 ++ s2) ++ s3 = s1 ++ (s2 ++ s3).
Proof.
  induction s1 as [|c s1 IH]; [reflexivity|].
  rewrite !append_cons. congruence.
Qed.

(** Two ways of splitting a string at the same distance from its end. *)
Lemma append_inj (x y a b : string) :
  String.length a = String.length b -> x ++ a = y ++ b -> x = y /\ a = b.
Proof.
  revert y. induction x as [|c x IH]; intros [|c' y] Hlen Heq;
    rewrite ?append_nil_l, ?append_cons in Heq.
  - now split.
  - subst a. simpl in Hlen. rewrite length_append in Hlen. lia.
  - subst b. simpl in Hlen. rewrite length_append in Hlen. lia.
  - injection Heq as -> Heq. destruct (IH y Hlen Heq) as [-> ->]. now split.
Qed.

Lemma substring_all (s : string) : substring 0 (String.length s) s = s.
Proof. induction s as [|c s IH]; simpl; congruence. Qed.

Lemma substring_prefix (pre s : string) :
  substring 0 (String.length pre) (pre ++ s) = pre.
Proof.
  induction pre as [|c pre IH]; [now destruct s|].
  rewrite append_cons. simpl. congruence.
Qed.

Lemma substring_suffix (pre s : string) :
  substring (String.length pre) (String.length s) (pre ++ s) = s.
Proof.
  induction pre as [|c pre IH]; [apply substring_all|].
  rewrite append_cons. exact IH.
Qed.

Lemma substring_split (n : nat) :
  forall s : string,
    (n <= String.length s)%nat ->
    s = substring 0 n s ++ substring n (String.length s - n) s.
Proof.
  induction n as [|n IH]; intros s Hn.
  - rewrite Nat.sub_0_r, substring_all. now destruct s.
  - destruct s as [|c s]; simpl in *; [lia|].
    rewrite append_cons. f_equal. apply IH. lia.
Qed.

(** [strings.HasSuffix] holds of the strings that end in the suffix. *)
Lemma HasSuffix_iff (s suffix : string) :
  Units.HasSuffix s suffix = true <-> exists pre, s = pre ++ suffix.
Proof.
  unfold Units.HasSuffix. rewrite andb_true_iff, Nat.leb_le, String.eqb_eq.
  split.
  - intros [Hlen Hsub].
    exists (substring 0 (String.length s - String.length suffix) s).
    pose proof (substring_split (String.length s - String.length suffix) s
                  ltac:(lia)) as Hsplit.
    replace (String.length s - (String.length s - String.length suffix))%nat
      with (String.length suffix) in Hsplit by lia.
    now rewrite Hsub in Hsplit.
  - intros [pre ->]. rewrite length_append. split; [lia|].
    replace (String.length pre + String.length suffix - String.length suffix)%nat
      with (String.length pre) by lia.
    apply substring_suffix.
Qed.

Lemma TrimSuffix_append (pre suffix : string) :
  Units.TrimSuffix (pre ++ suffix) suffix = pre.
Proof.
  unfold Units.TrimSuffix.
  replace (Units.HasSuffix (pre ++ suffix) suffix) with true
    by (symmetry; apply HasSuffix_iff; eauto).
  rewrite length_append.
  replace (String.length pre + String.length suffix - String.length suffix)%nat
    with (String.length pre) by lia.
  apply substring_prefix.
Qed.

(** A string does not end in a suffix whose last bytes differ from its
    own. *)
Lemma HasSuffix_other (x a y b : string) :
  String.length a = String.length b -> a <> b ->
  Units.HasSuffix (x ++ a) (y ++ b) = false.
Proof.
  intros Hlen Hne. apply not_true_is_false. intros [pre Heq]%HasSuffix_iff.
  rewrite <- append_assoc in Heq.
  now destruct (append_inj _ _ _ _ Hlen Heq).
Qed.

End StringFacts.

Section ParseFacts.

Import Units.
Open Scope string_scope.

Variables (ToLower TrimSpace : string -> string)
          (ParseFloat : string -> result string float).

(** What the two library functions do with a final "k": trimming white
    space keeps it, and no floating-point syntax ends in it. *)
Hypothesis TrimSpace_keeps_k :
  forall s, exists s', TrimSpace (s ++ "k") = s' ++ "k".
Hypothesis ParseFloat_rejects_k :
  forall s, exists e, ParseFloat (s ++ "k") = Err e.

Local Abbreviation parseDistance := (parseDistance ToLower TrimSpace ParseFloat).
Local Abbreviation parse_units := (parse_units TrimSpace ParseFloat).
Local Abbreviation recognized := (recognized ToLower TrimSpace ParseFloat).

Lemma parse_units_suffix (us : list (string * float)) (number abbrev : string)
    (perKM : float) :
  parse_units ((abbrev, perKM) :: us) (number ++ abbrev)
  = match ParseFloat (TrimSpace number) with
    | Err e => Err (ErrParsingDistance (TrimSpace number) e)
    | Ok count => Ok (count / perKM)%float
    end.
Proof.
  cbn [Units.parse_units].
  replace (HasSuffix (number ++ abbrev) abbrev) with true
    by (symmetry; apply HasSuffix_iff; eauto).
  now rewrite TrimSuffix_append.
Qed.

Lemma parse_units_skip (us : list (string * float)) (dist abbrev : string)
    (perKM : float) :
  HasSuffix dist abbrev = false ->
  parse_units ((abbrev, perKM) :: us) dist = parse_units us dist.
Proof. intros Hsuf. cbn [Units.parse_units]. now rewrite Hsuf. Qed.

Lemma number_without_k (number : string) (count : float) :
  ParseFloat (TrimSpace number) = Ok count ->
  HasSuffix (number ++ "m") "km" = false.
Proof.
  intros Hparse. apply not_true_is_false. intros [pre Heq]%HasSuffix_iff.
  change "km" with ("k" ++ "m") in Heq. rewrite <- append_assoc in Heq.
  destruct (append_inj _ _ _ _ eq_refl Heq) as [-> _].
  destruct (TrimSpace_keeps_k pre) as [s' Hs']. rewrite Hs' in Hparse.
  destruct (ParseFloat_rejects_k s') as [e He]. congruence.
Qed.

(** C7: [parseDistance] returns a value exactly for the strings that, once
    trimmed and lowercased, are a number followed by one of the suffixes km,
    ft, mi, m -- the number, trimmed again, being one [strconv.ParseFloat]
    accepts -- and the value is that number divided by the units per
    kilometer; every other string gives an error, "no recognized units"
    exactly when none of the four suffixes ends the string; and "50m"
    gives 0.05. *)
Theorem parseDistance_recognizes_units :
  (forall dist km, parseDistance dist = Ok km <-> recognized dist km) /\
  (forall dist, (exists e, parseDistance dist = Err e)
                <-> ~ exists km, recognized dist km) /\
  (forall dist d,
     parseDistance dist = Err (ErrNoRecognizedUnits d)
     <-> d = ToLower (TrimSpace dist) /\
         forall abbrev perKM, In (abbrev, perKM) units ->
                              HasSuffix d abbrev = false) /\
  (ToLower (TrimSpace "50m") = "50m" -> TrimSpace "50" = "50" ->
   ParseFloat "50" = Ok 50%float ->
   parseDistance "50m" = Ok 0.05%float).
Proof.
  assert (Hok : forall dist km,
             parseDistance dist = Ok km <-> recognized dist km).
  { intros dist km. unfold Units.parseDistance, Units.recognized.
    set (d := ToLower (TrimSpace dist)). clearbody d. split.
    - unfold units. cbn [Units.parse_units].
      repeat match goal with
      | |- context [HasSuffix d ?a] =>
          let H := fresh "Hsuf" in
          destruct (HasSuffix d a) eqn:H;
          [apply HasSuffix_iff in H as [number ->];
           rewrite TrimSuffix_append;
           destruct (ParseFloat (TrimSpace number)) as [count|e] eqn:Hp;
           [|discriminate];
           intros [= <-]; exists number, a; eexists _, count;
           split; [simpl; tauto|]; repeat split; assumption
          |]
      end.
      discriminate.
    - intros (number & abbrev & perKM & count & Hin & -> & Hp & ->).
      unfold units in *. simpl in Hin.
      destruct Hin as [[= <- <-]|[[= <- <-]|[[= <- <-]|[[= <- <-]|[]]]]].
      + now rewrite parse_units_suffix, Hp.
      + rewrite parse_units_skip
          by exact (HasSuffix_other number "ft" "" "km" eq_refl
                      ltac:(discriminate)).
        now rewrite parse_units_suffix, Hp.
      + rewrite parse_units_skip
          by exact (HasSuffix_other number "mi" "" "km" eq_refl
                      ltac:(discriminate)).
        rewrite parse_units_skip
          by exact (HasSuffix_other number "mi" "" "ft" eq_refl
                      ltac:(discriminate)).
        now rewrite parse_units_suffix, Hp.
      + rewrite parse_units_skip by exact (number_without_k number count Hp).
        rewrite parse_units_skip
          by exact (HasSuffix_other number "m" "f" "t" eq_refl
                      ltac:(discriminate)).
        rewrite parse_units_skip
          by exact (HasSuffix_other number "m" "m" "i" eq_refl
                      ltac:(discriminate)).
        now rewrite parse_units_suffix, Hp. }
  split; [exact Hok|]. split; [|split].
  - intros dist. split.
    + intros [e He] [km Hkm]. apply Hok in Hkm. congruence.
    + intros Hnot. destruct (parseDistance dist) as [km|e] eqn:Hp; [|eauto].
      exfalso. apply Hnot. exists km. now apply Hok.
  - intros dist d. unfold Units.parseDistance.
    set (d' := ToLower (TrimSpace dist)). clearbody d'.
    unfold units. cbn [Units.parse_units]. split.
    + destruct (HasSuffix d' "km") eqn:H1;
        [destruct (ParseFloat _); discriminate|].
      destruct (HasSuffix d' "ft") eqn:H2;
        [destruct (ParseFloat _); discriminate|].
      destruct (HasSuffix d' "mi") eqn:H3;
        [destruct (ParseFloat _); discriminate|].
      destruct (HasSuffix d' "m") eqn:H4;
        [destruct (ParseFloat _); discriminate|].
      intros [= <-]. split; [reflexivity|].
      intros abbrev perKM Hin. simpl in Hin.
      destruct Hin as [[= <- <-]|[[= <- <-]|[[= <- <-]|[[= <- <-]|[]]]]];
        assumption.
    + intros [-> Hnone].
      rewrite (Hnone "km" 1%float), (Hnone "ft" 3280.84%float),
        (Hnone "mi" 0.621371%float), (Hnone "m" 1000%float);
        simpl; tauto.
  - intros Hlower Htrim Hparse. apply Hok.
    exists "50", "m", 1000%float, 50%float.
    split; [simpl; tauto|]. rewrite Hlower, Htrim, Hparse.
    repeat split.
Qed.

End ParseFacts.

(** ** The bounding box solver *)

Section BoxFacts.

Import Box.

Variable VincentyDistance : Point -> Point -> result string float.

Section FindFacts.

Variables (p1 : Point) (dir : direction) (adjust : field)
          (limit targetDistance : float).

Local Abbreviation expand := (expand VincentyDistance p1 dir adjust limit targetDistance).
Local Abbreviation bisect := (bisect VincentyDistance p1 targetDistance).
Local Abbreviation find := (find VincentyDistance p1 dir adjust limit targetDistance).
Local Abbreviation hits_limit := (hits_limit VincentyDistance p1 dir adjust limit targetDistance).

(** The bisection leaves its loop only through the tolerance test. *)
Lemma bisect_within_tolerance (fuel : nat) (a b m : Point) :
  bisect fuel a b = Some (Ok m) ->
  exists d, VincentyDistance p1 m = Ok d /\
            within_tolerance d targetDistance = true.
Proof.
  revert a b.
  induction fuel as [|fuel IH]; intros a b; simpl; [discriminate|].
  destruct (VincentyDistance p1 (midpoint a b)) as [d|e] eqn:Hd;
    [|discriminate].
  destruct (within_tolerance d targetDistance) eqn:Htol.
  - intros [= <-]. eauto.
  - destruct (fgt d targetDistance); apply IH.
Qed.

(** A successful [find] leaves in [*p2] a point whose distance to [p1] was
    computed and passed the tolerance test. *)
Lemma find_within_tolerance (fuel : nat) (p2 m : Point) :
  find fuel p2 = Some (m, None) ->
  exists d, VincentyDistance p1 m = Ok d /\
            within_tolerance d targetDistance = true.
Proof.
  unfold Box.find.
  destruct (expand fuel p2 _) as [[p2' [e|]]|]; try discriminate.
  destruct (bisect fuel p1 p2') as [[m'|e]|] eqn:Hb; try discriminate.
  intros [= <-]. eapply bisect_within_tolerance; eassumption.
Qed.

(** More fuel does not change what the first loop returns. *)
Lemma expand_hits_limit (k : nat) :
  forall (fuel : nat) (p2 : Point) (inc : float),
    hits_limit k p2 inc = true ->
    (k < fuel)%nat ->
    exists p2', expand fuel p2 inc = Some (p2', Some TooCloseToPoleOrMeridian).
Proof.
  induction k as [|k IH]; intros fuel p2 inc Hhit Hfuel;
    (destruct fuel as [|fuel]; [lia|]); simpl in *.
  - unfold passes_limit in Hhit. rewrite Hhit. eauto.
  - apply andb_true_iff in Hhit as [Hkeep Hhit].
    unfold keeps_expanding, passes_limit in Hkeep.
    apply andb_true_iff in Hkeep as [Hlim Hdist].
    apply negb_true_iff in Hlim. rewrite Hlim.
    destruct (VincentyDistance p1 _) as [d|e]; [|discriminate].
    apply negb_true_iff in Hdist. rewrite Hdist.
    apply IH; [assumption|lia].
Qed.

(** A search whose expansion steps past the limit fails with the pole or
    meridian error. *)
Lemma find_hits_limit (k fuel : nat) (p2 : Point) :
  hits_limit k p2 1e-6%float = true ->
  (k < fuel)%nat ->
  exists p2', find fuel p2 = Some (p2', Some TooCloseToPoleOrMeridian).
Proof.
  intros Hhit Hfuel.
  destruct (expand_hits_limit k fuel p2 _ Hhit Hfuel) as [p2' Hexp].
  exists p2'. unfold Box.find. now rewrite Hexp.
Qed.

End FindFacts.

Lemma search_too_close (fuel k : nat) (p : Point) (size : float)
    (c : cardinal) :
  search_hits_limit VincentyDistance p size c k = true ->
  (k < fuel)%nat ->
  exists p2', search VincentyDistance fuel p size c
              = Some (p2', Some TooCloseToPoleOrMeridian).
Proof. apply find_hits_limit. Qed.

(** [findBoundingBox] returns the error of a search that fails after the
    searches before it succeeded. *)
Lemma findBoundingBox_error (fuel : nat) (p : Point) (size : float)
    (c : cardinal) (p2' : Point) (err : find_error) :
  forallb (succeeds VincentyDistance fuel p size) (earlier c) = true ->
  search VincentyDistance fuel p size c = Some (p2', Some err) ->
  findBoundingBox VincentyDistance fuel p size = Some (Err err).
Proof.
  unfold findBoundingBox, succeeds.
  destruct c; simpl; intros Hearlier Hc;
    repeat match goal with
    | H : _ && _ = true |- _ => apply andb_true_iff in H as [? ?]
    | H : match ?s with _ => _ end = true |- _ =>
        destruct s as [[? [?|]]|] eqn:?; try discriminate H
    end;
    rewrite ?Hc; reflexivity.
Qed.


End BoxFacts.

(** ** Decoding the takeout file *)

Section ConvertFacts.

Import Decode.

Variable ParseInt : string -> result string Z.

Local Abbreviation convert := (convert ParseInt).
Local Abbreviation convertAll := (convertAll ParseInt).

Lemma secondsString_short (timestamp : string) :
  (String.length timestamp < 3)%nat ->
  secondsString timestamp = ([], Panicked SliceBoundsOutOfRange).
Proof.
  intros Hlen. unfold secondsString.
  now destruct (Nat.ltb_spec (String.length timestamp) 3); [|lia].
Qed.

Lemma secondsString_long (timestamp : string) :
  (3 <= String.length timestamp)%nat ->
  secondsString timestamp
  = ([], Returned (substring 0 (String.length timestamp - 3) timestamp)).
Proof.
  intros Hlen. unfold secondsString.
  now destruct (Nat.ltb_spec (String.length timestamp) 3); [lia|].
Qed.

(** A record with a timestamp of fewer than three bytes panics at the slice
    expression, before [strconv.ParseInt] is called. *)
Lemma convert_short (location : Location) :
  (String.length (timestampMs location) < 3)%nat ->
  convert (Some location) = ([], Panicked SliceBoundsOutOfRange).
Proof.
  intros Hlen. unfold Decode.convert.
  now rewrite (secondsString_short _ Hlen).
Qed.

(** A record with a timestamp of three bytes or more is converted or ends
    the run in [log.Fatalf]. *)
Lemma convert_sliceable (location : option Location) :
  sliceable location = true ->
  (exists c, convert location = ([], Returned c)) \/
  (exists s, convert location = ([], Fatal (FatalParsingTime s))).
Proof.
  destruct location as [location|]; [|discriminate]. unfold sliceable.
  intros Hlen%Nat.leb_le. unfold Decode.convert.
  rewrite (secondsString_long _ Hlen), M_left_id.
  destruct (ParseInt _); [left|right]; eauto.
Qed.

(** The loop prints nothing. *)
Lemma convertAll_log (pinpoints : list (option Location)) :
  (convertAll pinpoints).1 = [].
Proof.
  induction pinpoints as [|location rest IH]; [reflexivity|].
  cbn [Decode.convertAll].
  assert (Hc : (convert location).1 = []).
  { destruct location as [location|]; [|reflexivity]. unfold Decode.convert.
    unfold secondsString. destruct (_ <? _)%nat; [reflexivity|].
    rewrite M_ret_bind. now destruct (ParseInt _). }
  destruct (convert location) as [l [c| | | |]]; simpl in Hc; subst l;
    try reflexivity.
  rewrite M_left_id.
  destruct (convertAll rest) as [l' [cs| | | |]]; simpl in IH; subst l';
    reflexivity.
Qed.

(** C10: the conversion loop slices the last three bytes off every
    timestamp.  If the first record that is not converted has a timestamp
    shorter than three bytes, the loop panics with a slice bounds error,
    and neither converts the record nor reaches the fatal "Error parsing
    time" message; if every record is present with a timestamp of three
    bytes or more, as every millisecond timestamp is, the loop does not
    panic: it returns the converted locations or ends in that fatal
    message. *)
Theorem short_timestamp_panics
    (before after : list (option Location)) (location : Location)
    (pinpoints : list (option Location)) :
  (forallb (converts ParseInt) before = true ->
   (String.length (timestampMs location) < 3)%nat ->
   convertAll (before ++ Some location :: after)
   = ([], Panicked SliceBoundsOutOfRange)) /\
  (forallb sliceable pinpoints = true ->
   (exists converted, convertAll pinpoints = ([], Returned converted) /\
                      length converted = length pinpoints) \/
   (exists s, convertAll pinpoints = ([], Fatal (FatalParsingTime s)))).
Proof.
  split.
  - intros Hbefore Hshort.
    induction before as [|b before IH]; cbn [app Decode.convertAll].
    + now rewrite (convert_short _ Hshort).
    + simpl in Hbefore. apply andb_true_iff in Hbefore as [Hb Hbefore].
      unfold converts in Hb.
      pose proof (convertAll_log [b]) as Hlog. cbn [Decode.convertAll] in Hlog.
      destruct (convert b) as [l [c| | | |]]; try discriminate Hb.
      rewrite M_bind_returned, (IH Hbefore).
      simpl in Hlog. unfold_M. simpl in Hlog.
      apply app_eq_nil in Hlog as [-> _]. reflexivity.
  - induction pinpoints as [|p rest IH]; intros Hall.
    + left. exists []. split; reflexivity.
    + simpl in Hall. apply andb_true_iff in Hall as [Hp Hrest].
      cbn [Decode.convertAll].
      destruct (convert_sliceable p Hp) as [[c ->]|[s ->]];
        [|right; exists s; reflexivity].
      rewrite M_left_id.
      destruct (IH Hrest) as [(cs & -> & Hlen)|[s ->]].
      * left. exists (c :: cs). rewrite M_left_id.
        split; [reflexivity|simpl; now rewrite Hlen].
      * right. exists s. reflexivity.
Qed.

End ConvertFacts.

(** ** The whole run *)

Section MainFacts.

Import Main.

Variable VincentyDistance : Point -> Point -> result string float.
Variables (ToLower TrimSpace : string -> string)
          (ParseFloat : string -> result string float)
          (ParseInt : string -> result string Z).
Variable bushRange :
  list ConvertedLocation -> float -> float -> float -> float -> list Z.
Variables (flags : Flags) (world : World).

Local Abbreviation main :=
  (main VincentyDistance ToLower TrimSpace ParseFloat ParseInt bushRange
     flags world).
Local Abbreviation parseDistance :=
  (Units.parseDistance ToLower TrimSpace ParseFloat).

(** Resolving the target prints nothing but the resolved address. *)
Lemma resolveTarget_visits (l : list log_line) (o : outcome Point) :
  resolveTarget flags world = (l, o) -> visits l = [].
Proof.
  unfold resolveTarget.
  destruct (String.eqb _ _); [now intros [= <- <-]|].
  destruct (getLocation world _) as [[full p]|e]; now intros [= <- <-].
Qed.

Lemma resolveTarget_scan_lines (l : list log_line) (o : outcome Point) :
  resolveTarget flags world = (l, o) -> filter is_scan_line l = [].
Proof.
  unfold resolveTarget.
  destruct (String.eqb _ _); [now intros [= <- <-]|].
  destruct (getLocation world _) as [[full p]|e]; now intros [= <- <-].
Qed.

(** C6: in a run that reaches the bounding box solver (one argument, the
    target resolved, the threshold parsed), if one of the four searches --
    the searches before it having succeeded -- steps its coordinate past its
    limit (180, 90, -180, -90 degrees for east, north, west, south) in some
    iteration [k] of the expansion, every earlier iteration having found a
    distance that does not exceed the target, then that search returns the
    pole-or-meridian error, [findBoundingBox] returns it instead of a box,
    and [main] ends in [log.Fatalf] having printed only the target and the
    distance: no line of the scan, no visit. *)
Theorem too_close_to_pole_or_meridian_is_fatal
    (fuel k : nat) (c : Box.cardinal) (target : Point) (km : float)
    (l0 : list log_line) :
  length (args world) = 1%nat ->
  resolveTarget flags world = (l0, Returned target) ->
  parseDistance (threshold flags) = Ok km ->
  forallb (Box.succeeds VincentyDistance fuel target (km * 2)%float)
          (Box.earlier c) = true ->
  Box.search_hits_limit VincentyDistance target (km * 2)%float c k = true ->
  (k < fuel)%nat ->
  (exists p2', Box.search VincentyDistance fuel target (km * 2)%float c
               = Some (p2', Some Box.TooCloseToPoleOrMeridian)) /\
  Box.findBoundingBox VincentyDistance fuel target (km * 2)%float
    = Some (Err Box.TooCloseToPoleOrMeridian) /\
  main fuel
    = (l0 ++ [LogUsingTarget target; LogUsingDistance km],
       Fatal (FatalBoundingBox Box.TooCloseToPoleOrMeridian)) /\
  filter is_scan_line (main fuel).1 = [] /\
  visits (main fuel).1 = [].
Proof.
  intros Hargs Htarget Hparse Hearlier Hhit Hfuel.
  destruct (search_too_close VincentyDistance fuel k target _ c Hhit Hfuel)
    as [p2' Hsearch].
  pose proof (findBoundingBox_error VincentyDistance fuel target _ c p2' _
                Hearlier Hsearch) as Hbox.
  assert (Hmain : main fuel
    = (l0 ++ [LogUsingTarget target; LogUsingDistance km],
       Fatal (FatalBoundingBox Box.TooCloseToPoleOrMeridian))).
  { unfold Main.main. rewrite Hargs. simpl.
    unfold mbind, M_bind, bind. rewrite Htarget. simpl.
    rewrite Hparse. simpl. rewrite Hbox. simpl.
    reflexivity. }
  split; [eauto|]. split; [exact Hbox|]. split; [exact Hmain|].
  rewrite Hmain. simpl. unfold visits.
  rewrite filter_app, omap_app, (resolveTarget_scan_lines _ _ Htarget).
  fold (visits l0). rewrite (resolveTarget_visits _ _ Htarget).
  split; reflexivity.
Qed.

End MainFacts.

(** ** The range query *)

Section SearchFacts.

Import Main.

Variable VincentyDistance : Point -> Point -> result string float.
Variables (ToLower TrimSpace : string -> string)
          (ParseFloat : string -> result string float)
          (ParseInt : string -> result string Z).
Variable bushRange :
  list ConvertedLocation -> float -> float -> float -> float -> list Z.
Variables (flags : Flags) (world : World).

Local Abbreviation main :=
  (main VincentyDistance ToLower TrimSpace ParseFloat ParseInt bushRange
     flags world).
Local Abbreviation search := (search VincentyDistance bushRange flags).

(** Loading the locations prints nothing. *)
Lemma loadConverted_log :
  (loadConverted ParseInt flags world).1 = [].
Proof.
  unfold loadConverted.
  assert (Htakeout : forall (k : list ConvertedLocation -> M (list ConvertedLocation)),
             (forall c, (k c).1 = []) ->
             ((match takeoutFile world with
               | TakeoutOpenError e => logFatalf (FatalOpenTakeout e)
               | TakeoutDecodeError e => logFatalf (FatalLoadTakeout e)
               | TakeoutDecoded pinpoints => Decode.convertAll ParseInt pinpoints
               end) ≫= k).1 = []).
  { intros k Hk. destruct (takeoutFile world) as [e|e|pinpoints];
      try reflexivity.
    pose proof (convertAll_log ParseInt pinpoints) as Hlog.
    destruct (Decode.convertAll ParseInt pinpoints) as [l [c| | | |]];
      simpl in Hlog; subst l; try reflexivity.
    rewrite M_left_id. apply Hk. }
  assert (Hwrite : forall c : list ConvertedLocation,
             ((if cacheData flags && (0 <? length c)%nat
               then match cacheWrite world with
                    | CacheWritten => mret ()
                    | CacheCreateError e => logFatalf (FatalCreateCache e)
                    | CacheEncodeError e => logFatalf (FatalWriteCache e)
                    end
               else mret ()) ≫= fun _ => mret c).1 = []).
  { intros c. destruct (cacheData flags && _); [|reflexivity].
    now destruct (cacheWrite world). }
  destruct (cacheData flags); [destruct (cacheFile world)|];
    try reflexivity; rewrite ?M_ret_bind; now apply Htakeout.
Qed.

(** With no candidate the search stage prints the number of points and
    returns. *)
Lemma search_empty_range (target : Point) (threshholdKm : float)
    (ne sw : Point) (converted : list ConvertedLocation) :
  bushRange converted (Lat sw) (Long sw) (Lat ne) (Long ne) = [] ->
  search target threshholdKm ne sw converted
  = ([LogLoaded (length converted)], Returned ()).
Proof. intros Hrange. unfold Main.search. now rewrite Hrange. Qed.

(** C9: in a run that reaches the range query (one argument, the target
    resolved, the threshold parsed, the box found, the locations loaded), if
    the query returns no index, [main] returns at once: after the lines it
    printed before, it prints only the number of points loaded -- no line
    of the scan, no visit. *)
Theorem empty_candidate_set_returns_without_scanning
    (fuel : nat) (target : Point) (km : float) (ne sw : Point)
    (converted : list ConvertedLocation) (l0 l1 : list log_line) :
  length (args world) = 1%nat ->
  resolveTarget flags world = (l0, Returned target) ->
  Units.parseDistance ToLower TrimSpace ParseFloat (threshold flags) = Ok km ->
  Box.findBoundingBox VincentyDistance fuel target (km * 2)%float
    = Some (Ok (ne, sw)) ->
  loadConverted ParseInt flags world = (l1, Returned converted) ->
  bushRange converted (Lat sw) (Long sw) (Lat ne) (Long ne) = [] ->
  main fuel
  = (l0 ++ [LogUsingTarget target; LogUsingDistance km]
        ++ (if debug flags then [LogBoundingBox ne sw] else [])
        ++ [LogLoaded (length converted)],
     Returned ()) /\
  filter is_scan_line (main fuel).1 = [] /\
  visits (main fuel).1 = [].
Proof.
  intros Hargs Htarget Hparse Hbox Hload Hrange.
  pose proof loadConverted_log as Hl1. rewrite Hload in Hl1. simpl in Hl1.
  subst l1.
  assert (Hmain : main fuel
    = (l0 ++ [LogUsingTarget target; LogUsingDistance km]
          ++ (if debug flags then [LogBoundingBox ne sw] else [])
          ++ [LogLoaded (length converted)],
       Returned ())).
  { unfold Main.main. rewrite Hargs. cbn [Nat.eqb negb].
    pose proof (search_empty_range target km ne sw converted Hrange) as Hs.
    unfold mbind, M_bind, bind. rewrite Htarget. cbn [logPrintf].
    rewrite Hparse. cbn [logPrintf mret M_ret ret]. rewrite Hbox.
    cbn [mret M_ret ret]. rewrite Hload. cbn beta iota. rewrite Hs.
    destruct (debug flags); simpl; now rewrite ?app_nil_r. }
  split; [exact Hmain|]. rewrite Hmain. cbn [fst].
  unfold visits. rewrite !filter_app, !omap_app.
  rewrite (resolveTarget_scan_lines _ _ _ _ Htarget).
  fold (visits l0). rewrite (resolveTarget_visits _ _ _ _ Htarget).
  now destruct (debug flags).
Qed.

End SearchFacts.

(** ** The visit scan *)

Section ScanFacts.

Import Visits.

Variable VincentyDistance : Point -> Point -> result string float.
Variables (debug : bool) (target : Point) (threshholdKm : float).
Variable points : list ConvertedLocation.
Variables (candidates : gset Z) (lastIndex : Z).

Local Abbreviation distance_at :=
  (distance_at VincentyDistance target threshholdKm candidates).
Local Abbreviation is_inside :=
  (is_inside VincentyDistance target threshholdKm points candidates).
Local Abbreviation is_outside :=
  (is_outside VincentyDistance target threshholdKm points candidates).
Local Abbreviation is_skipped :=
  (is_skipped VincentyDistance target threshholdKm points candidates).
Local Abbreviation close_run := (close_run debug).
Local Abbreviation finish := (finish debug lastIndex).
Local Abbreviation body :=
  (body VincentyDistance debug target threshholdKm points candidates lastIndex).
Local Abbreviation iterate :=
  (iterate VincentyDistance debug target threshholdKm points candidates
     lastIndex).

Lemma at_index_lookup (idx : Z) (loc : ConvertedLocation) :
  0 <= idx -> points !! Z.to_nat idx = Some loc ->
  at_index points idx = ([], Returned loc).
Proof.
  intros Hidx Hloc. unfold at_index.
  destruct (Z.ltb_spec idx 0); [lia|]. now rewrite Hloc.
Qed.

(** The three ways the body treats an index whose point exists. *)
Lemma body_skipped (idx : Z) (st : counters) :
  is_skipped idx = true ->
  exists loc e,
    points !! Z.to_nat idx = Some loc /\
    body idx st = (if debug then [LogSkipping loc e] else [], Returned st).
Proof.
  unfold Visits.is_skipped.
  destruct (points !! Z.to_nat idx) as [loc|] eqn:Hloc; [|discriminate].
  intros [Hidx Hd]%andb_true_iff. apply Z.leb_le in Hidx.
  exists loc. unfold Visits.body.
  rewrite (at_index_lookup idx loc Hidx Hloc), M_left_id.
  destruct (distance_at idx loc) as [d|e]; [discriminate|].
  exists e. split; [reflexivity|]. unfold_M. now destruct debug.
Qed.

Lemma body_outside (idx : Z) (st : counters) :
  is_outside idx = true ->
  body idx st = finish idx (outside st).
Proof.
  unfold Visits.is_outside.
  destruct (points !! Z.to_nat idx) as [loc|] eqn:Hloc; [|discriminate].
  intros [Hidx Hd]%andb_true_iff. apply Z.leb_le in Hidx.
  unfold Visits.body. rewrite (at_index_lookup idx loc Hidx Hloc), M_left_id.
  destruct (distance_at idx loc) as [d|e]; [|discriminate].
  apply negb_true_iff in Hd. unfold_M. simpl. rewrite Hd.
  now destruct (finish idx (outside st)).
Qed.

Lemma body_inside (idx : Z) (st : counters) :
  is_inside idx = true ->
  exists loc d,
    points !! Z.to_nat idx = Some loc /\
    distance_at idx loc = Ok d /\
    body idx st
    = ((if debug then [LogDistance d (LocTime loc)] else [])
         ++ (finish idx (inside loc st)).1,
       (finish idx (inside loc st)).2).
Proof.
  unfold Visits.is_inside.
  destruct (points !! Z.to_nat idx) as [loc|] eqn:Hloc; [|discriminate].
  intros [Hidx Hd]%andb_true_iff. apply Z.leb_le in Hidx.
  exists loc. unfold Visits.body.
  rewrite (at_index_lookup idx loc Hidx Hloc), M_left_id.
  destruct (distance_at idx loc) as [d|e]; [|discriminate].
  exists d. do 2 (split; [reflexivity|]).
  unfold_M. rewrite Hd.
  destruct debug; destruct (Visits.finish _ _ _ _); reflexivity.
Qed.

(** What [close_run] prints and returns. *)
Lemma close_run_eq (st : counters) :
  close_run st
  = (if minPinpointCount <=? maxConsecutiveInsideCount st
     then [LogVisited (record_of st)]
     else if (0 <? totalInsideCount st) && debug
          then [LogDropped (record_of st)] else [],
     Returned (mkCounters (startTime st) (endTime st) 0
                 (consecutiveInsideCount st) 0 (consecutiveOutsideCount st))).
Proof.
  unfold Visits.close_run. unfold_M.
  destruct (minPinpointCount <=? _); [reflexivity|].
  destruct (0 <? _); [|reflexivity]. now destruct debug.
Qed.

Lemma outsides_fields (n : nat) (st : counters) :
  startTime (outsides n st) = startTime st /\
  endTime (outsides n st) = endTime st /\
  totalInsideCount (outsides n st) = totalInsideCount st /\
  maxConsecutiveInsideCount (outsides n st) = maxConsecutiveInsideCount st /\
  consecutiveOutsideCount (outsides n st)
    = consecutiveOutsideCount st + Z.of_nat n /\
  ((0 < n)%nat -> consecutiveInsideCount (outsides n st) = 0).
Proof.
  induction n as [|n IH]; [simpl; repeat split; lia|].
  destruct IH as (Hs & He & Ht & Hm & Ho & _).
  unfold outsides in *. rewrite Nat.iter_succ. simpl.
  repeat split; try assumption; lia.
Qed.

(** Outside points short of the minimum run length, none of them the last
    index, go by without a closure. *)
Lemma iterate_outsides (n : nat) :
  forall (idx : Z) (st : counters),
    all_from is_outside n idx = true ->
    consecutiveOutsideCount st + Z.of_nat n < minPinpointCount ->
    idx + Z.of_nat n <= lastIndex ->
    iterate n idx st = ([], Returned (outsides n st)).
Proof.
  induction n as [|n IH]; intros idx st Hall Hcount Hlast; [reflexivity|].
  simpl in Hall. apply andb_true_iff in Hall as [Hout Hall].
  cbn [Visits.iterate]. rewrite (body_outside idx st Hout).
  unfold Visits.finish, closes. cbn [outside consecutiveOutsideCount].
  destruct (Z.leb_spec minPinpointCount (consecutiveOutsideCount st + 1));
    [lia|].
  destruct (Z.eqb_spec idx lastIndex); [lia|]. simpl.
  unfold_M. rewrite IH; [|assumption|simpl; lia|lia].
  change (outside (outsides n st)) with (Nat.iter (S n) outside st).
  now rewrite Nat.iter_succ_r.
Qed.

Lemma iterate_plus (n m : nat) :
  forall (idx : Z) (st : counters),
    iterate (n + m) idx st
    = (iterate n idx st ≫= iterate m (idx + Z.of_nat n)).
Proof.
  induction n as [|n IH]; intros idx st.
  - simpl. rewrite Z.add_0_r. symmetry. apply M_left_id.
  - cbn [Init.Nat.add Visits.iterate]. rewrite M_assoc.
    apply M_bind_ext. intros st'. rewrite IH.
    now replace (idx + 1 + Z.of_nat n) with (idx + Z.of_nat (S n)) by lia.
Qed.

(** C4: the previous point was inside ([consecutiveOutsideCount] is 0) and
    nine points classified outside follow, none of them the last index of
    the span.  If the tenth point is inside and not the last index either,
    the ten iterations print no closure line and the counters of the run
    go on: [totalInsideCount] is one more than before the gap and
    [maxConsecutiveInsideCount] is kept (or 1).  If the tenth point is
    outside too, that iteration closes the run: it prints the visit when
    [maxConsecutiveInsideCount] is at least 10 and resets both counters. *)
Theorem gap_hysteresis (idx : Z) (st : counters) :
  consecutiveOutsideCount st = 0 ->
  all_from is_outside 9 idx = true ->
  idx + 9 <= lastIndex ->
  (is_inside (idx + 9) = true -> idx + 9 <> lastIndex ->
   exists l st',
     iterate 10 idx st = (l, Returned st') /\
     filter is_closure_line l = [] /\
     totalInsideCount st' = totalInsideCount st + 1 /\
     maxConsecutiveInsideCount st'
       = Z.max (maxConsecutiveInsideCount st) 1 /\
     startTime st'
       = (if totalInsideCount st =? 0 then endTime st' else startTime st))
  /\
  (is_outside (idx + 9) = true ->
   exists st',
     iterate 10 idx st
     = (if minPinpointCount <=? maxConsecutiveInsideCount st
        then [LogVisited (record_of st)]
        else if (0 <? totalInsideCount st) && debug
             then [LogDropped (record_of st)] else [],
        Returned st') /\
     totalInsideCount st' = 0 /\
     maxConsecutiveInsideCount st' = 0).
Proof.
  intros Hopen Hgap Hlast.
  assert (Hnine : iterate 9 idx st = ([], Returned (outsides 9 st))).
  { apply iterate_outsides; [assumption|unfold minPinpointCount; lia|lia]. }
  destruct (outsides_fields 9 st) as (Hs & He & Ht & Hm & Ho & Hi).
  specialize (Hi ltac:(lia)).
  change 10%nat with (9 + 1)%nat.
  rewrite iterate_plus, Hnine, M_left_id. cbn [Visits.iterate].
  change (Z.of_nat 9) with 9 in *.
  rewrite M_right_id. split.
  - intros Hin Hnotlast.
    destruct (body_inside (idx + 9) (outsides 9 st) Hin)
      as (loc & d & _ & _ & ->).
    unfold Visits.finish, closes. cbn [inside consecutiveOutsideCount].
    destruct (Z.eqb_spec (idx + 9) lastIndex); [lia|]. simpl.
    eexists _, _. split; [reflexivity|].
    rewrite app_nil_r. simpl. repeat split.
    + now destruct debug.
    + change (0 + 1) with 1.
      destruct (Z.ltb_spec (maxConsecutiveInsideCount st) 1); lia.
  - intros Hout. rewrite (body_outside _ _ Hout).
    unfold Visits.finish, closes. cbn [outside consecutiveOutsideCount].
    rewrite Ho, Hopen. simpl. rewrite close_run_eq. simpl.
    eexists. split; [reflexivity|]. split; reflexivity.
Qed.

(** C5: an iteration that reaches the closure of a run -- the point exists,
    its distance is computed, and after the update of the counters either
    [consecutiveOutsideCount] has reached 10 or the index is the last --
    prints the visit exactly when [maxConsecutiveInsideCount] is at least
    10 and prints no visit exactly when it is at most 9; the dropped run is
    printed exactly when, besides, [totalInsideCount] is positive and the
    debug flag is set. *)
Theorem visit_emitted_iff_max_at_least_ten
    (idx : Z) (st : counters) (loc : ConvertedLocation) (d : float) :
  at_index points idx = ([], Returned loc) ->
  distance_at idx loc = Ok d ->
  let st1 := if (d <? threshholdKm)%float then inside loc st else outside st in
  closes lastIndex idx st1 = true ->
  (visits (body idx st).1 = [record_of st1]
   <-> 10 <= maxConsecutiveInsideCount st1) /\
  (visits (body idx st).1 = []
   <-> maxConsecutiveInsideCount st1 <= 9) /\
  (In (LogDropped (record_of st1)) (body idx st).1
   <-> maxConsecutiveInsideCount st1 <= 9 /\ 0 < totalInsideCount st1 /\
       debug = true).
Proof.
  intros Hloc Hd st1 Hcloses.
  assert (Hbody : (body idx st).1
    = (if (d <? threshholdKm)%float && debug
       then [LogDistance d (LocTime loc)] else [])
      ++ (if minPinpointCount <=? maxConsecutiveInsideCount st1
          then [LogVisited (record_of st1)]
          else if (0 <? totalInsideCount st1) && debug
               then [LogDropped (record_of st1)] else [])).
  { unfold Visits.body. rewrite Hloc, M_left_id, Hd.
    subst st1. destruct (d <? threshholdKm)%float.
    - rewrite debugPrintf_then, M_bind_returned. unfold Visits.finish.
      rewrite Hcloses, close_run_eq. now destruct debug.
    - rewrite M_ret_bind. unfold Visits.finish.
      rewrite Hcloses, close_run_eq. reflexivity. }
  rewrite Hbody. clear Hbody.
  set (D := if (d <? threshholdKm)%float && debug
            then [LogDistance d (LocTime loc)] else []).
  assert (HD : visits D = [] /\ ~ In (LogDropped (record_of st1)) D).
  { subst D. destruct ((d <? threshholdKm)%float && debug); simpl;
      split; try reflexivity; intros H; [destruct H as [H|[]]|destruct H];
      discriminate H. }
  destruct HD as [HDv HDd].
  unfold visits in *. rewrite omap_app, HDv, in_app_iff. simpl.
  unfold minPinpointCount.
  destruct (Z.leb_spec 10 (maxConsecutiveInsideCount st1)) as [Hmax|Hmax].
  - simpl. split; [tauto|]. split; [split; [discriminate|lia]|].
    split; [|lia]. intros [H|[H|[]]]; [tauto|discriminate H].
  - destruct ((0 <? totalInsideCount st1) && debug) eqn:Hdrop; simpl.
    + apply andb_true_iff in Hdrop as [Htot%Z.ltb_lt Hdebug].
      split; [split; [discriminate|lia]|]. split; [split; [lia|reflexivity]|].
      split; [intros _; repeat split; [lia|assumption..]|tauto].
    + split; [split; [discriminate|lia]|]. split; [split; [lia|reflexivity]|].
      split; [tauto|]. intros (_ & Htot%Z.ltb_lt & Hdebug).
      rewrite Htot, Hdebug in Hdrop. discriminate Hdrop.
Qed.

(** One iteration raises no counter by more than one and leaves none
    negative. *)
Lemma body_bounded (B idx : Z) (st st' : counters) (l : list log_line) :
  bounded B st ->
  body idx st = (l, Returned st') ->
  bounded (B + 1) st'.
Proof.
  intros (Ht & Hc & Hm & Ho). unfold Visits.body, at_index.
  destruct (idx <? 0); [unfold_M; discriminate|].
  destruct (points !! Z.to_nat idx) as [loc|]; [|unfold_M; discriminate].
  rewrite M_ret_bind.
  destruct (distance_at idx loc) as [d|e].
  - destruct (d <? threshholdKm)%float.
    + rewrite debugPrintf_then, M_bind_returned. unfold Visits.finish.
      destruct (closes _ _ _); [rewrite close_run_eq|];
        intros [= _ <-]; unfold bounded; simpl;
        destruct (Z.ltb_spec (maxConsecutiveInsideCount st)
                    (consecutiveInsideCount st + 1)); lia.
    + rewrite M_ret_bind. unfold Visits.finish.
      destruct (closes _ _ _); [rewrite close_run_eq|];
        intros [= _ <-]; unfold bounded; simpl; lia.
  - rewrite debugPrintf_then. intros [= _ <-]. unfold bounded. lia.
Qed.

(** The counters after [n] iterations are at most [n] above a bound on
    their values before: scanning a slice, they stay far below 2^63. *)
Lemma scan_counters_bounded (n : nat) :
  forall (B idx : Z) (st st' : counters) (l : list log_line),
    bounded B st ->
    iterate n idx st = (l, Returned st') ->
    bounded (B + Z.of_nat n) st'.
Proof.
  induction n as [|n IH]; intros B idx st st' l Hb.
  - intros [= _ <-]. now rewrite Z.add_0_r.
  - cbn [Visits.iterate].
    destruct (body idx st) as [l1 [st1| | | |]] eqn:Hbody;
      try (unfold_M; discriminate).
    rewrite M_bind_returned.
    destruct (iterate n (idx + 1) st1) as [l2 o2] eqn:Hrest.
    simpl. intros [= _ ->].
    replace (B + Z.of_nat (S n)) with (B + 1 + Z.of_nat n) by lia.
    eapply IH; [|exact Hrest]. eapply body_bounded; eassumption.
Qed.

End ScanFacts.

Section DetectFacts.

Import Visits.

Variable VincentyDistance : Point -> Point -> result string float.
Variables (debug : bool) (target : Point) (threshholdKm : float).
Variable points : list ConvertedLocation.

Local Abbreviation detect :=
  (detect VincentyDistance debug target threshholdKm points).

(** Two orders of the same indices sort to the same slice. *)
Lemma sortInts_Permutation (indexes1 indexes2 : list Z) :
  indexes1 ≡ₚ indexes2 -> sortInts indexes1 = sortInts indexes2.
Proof.
  intros Hperm. unfold sortInts.
  apply (StronglySorted_unique Z.le).
  - apply Sorted_StronglySorted; [intros x y z; lia|].
    apply Sorted_merge_sort. intros x y; lia.
  - apply Sorted_StronglySorted; [intros x y z; lia|].
    apply Sorted_merge_sort. intros x y; lia.
  - now rewrite !merge_sort_Permutation.
Qed.

(** C8: the scan is a function of the point sequence, the target, the
    threshold and the set of candidate indices.  Whatever the order in which
    the range query returns the candidates, the run prints the same lines,
    so the same visits in the same order, and ends the same way. *)
Theorem detect_independent_of_candidate_order (indexes1 indexes2 : list Z) :
  indexes1 ≡ₚ indexes2 ->
  detect indexes1 = detect indexes2 /\
  visits (detect indexes1).1 = visits (detect indexes2).1.
Proof.
  intros Hperm.
  assert (Heq : detect indexes1 = detect indexes2); [|now rewrite Heq].
  unfold Visits.detect.
  destruct indexes1 as [|i1 l1], indexes2 as [|i2 l2]; try reflexivity.
  - now apply Permutation_nil_cons in Hperm.
  - symmetry in Hperm. now apply Permutation_nil_cons in Hperm.
  - rewrite (sortInts_Permutation _ _ Hperm).
    now rewrite (list_to_set_perm_L (C:=gset Z) _ _ Hperm).
Qed.

End DetectFacts.

(** ** The ASCII instances satisfy the assumptions on the library *)

Section InstanceFacts.

Import Units.
Open Scope string_scope.

Lemma trim_left_keeps_k (s : string) :
  exists s', trim_left (s ++ "k") = s' ++ "k".
Proof.
  induction s as [|c s IH]; [now exists ""|].
  rewrite append_cons. simpl. destruct (is_space c); [exact IH|].
  now exists (String c s).
Qed.

Lemma trim_right_keeps_k (s : string) : trim_right (s ++ "k") = s ++ "k".
Proof.
  induction s as [|c s IH]; [reflexivity|].
  rewrite append_cons. simpl. rewrite IH. now destruct s.
Qed.

Lemma ascii_TrimSpace_keeps_k (s : string) :
  exists s', ascii_TrimSpace (s ++ "k") = s' ++ "k".
Proof.
  unfold ascii_TrimSpace. destruct (trim_left_keeps_k s) as [s' ->].
  exists s'. apply trim_right_keeps_k.
Qed.

Lemma digits_value_rejects_k (s : string) :
  forall acc, digits_value acc (s ++ "k") = None.
Proof.
  induction s as [|c s IH]; intros acc; [reflexivity|].
  rewrite append_cons. simpl. destruct (digit_value c); [apply IH|reflexivity].
Qed.

Lemma digits_ParseFloat_rejects_k (s : string) :
  exists e, digits_ParseFloat (s ++ "k") = Err e.
Proof.
  exists "invalid syntax". unfold digits_ParseFloat.
  rewrite digits_value_rejects_k. now destruct s.
Qed.

End InstanceFacts.

(** ** Runs on concrete inputs *)


(** C6 a thousandth of a degree south of the pole with a threshold of
    100 km: the east search succeeds and the north search steps past 90
    degrees in its tenth iteration. *)
Lemma too_close_to_pole_or_meridian_is_fatal_witness :
  Main.main Instances.gridDistance Units.ascii_ToLower Units.ascii_TrimSpace
    Units.digits_ParseFloat Decode.decimal_ParseInt Main.linearRange
    Instances.poleFlags Instances.world0 100
  = ([LogUsingTarget Instances.poleTarget; LogUsingDistance 100%float],
     Fatal (FatalBoundingBox Box.TooCloseToPoleOrMeridian)).
Proof.
  apply (too_close_to_pole_or_meridian_is_fatal Instances.gridDistance
           Units.ascii_ToLower Units.ascii_TrimSpace Units.digits_ParseFloat
           Decode.decimal_ParseInt Main.linearRange
           Instances.poleFlags Instances.world0
           100%nat 9%nat Box.North Instances.poleTarget 100%float []).
  - reflexivity.
  - reflexivity.
  - vm_compute; reflexivity.
  - vm_compute; reflexivity.
  - vm_compute; reflexivity.
  - lia.
Defined.


(** The scenarios of the design notes, on the grid distance: fifteen points
    inside, twelve outside and fifteen inside give two visits of fifteen
    points each; five points inside give none. *)
Example two_visits_around_a_gap_of_twelve :
  let points :=
    Instances.stay 0%float 0%float 1000 15
      ++ Instances.stay 1%float 1%float 1015 12
      ++ Instances.stay 0%float 0%float 1027 15 in
  Visits.detect Instances.gridDistance false Instances.origin 0.05%float
    points
    (Main.linearRange points (-0.01)%float (-0.01)%float 0.01%float 0.01%float)
  = ([LogVisited (mkVisit 1000 1014 15 15);
      LogVisited (mkVisit 1027 1041 15 15)],
     Returned ()).
Proof. vm_compute. reflexivity. Qed.

Example five_points_are_no_visit :
  Visits.detect Instances.gridDistance false Instances.origin 0.05%float
    (Instances.stay 0%float 0%float 1000 5) (seqZ 0 5)
  = ([], Returned ()).
Proof. vm_compute. reflexivity. Qed.

(** [float64(int64)] at the ends of the range and on the default target. *)
Example float64_of_int64_values :
  Decode.float64_of_int64 (- 2 ^ 63) = (- (PrimFloat.of_uint63 (Uint63.of_Z (2 ^ 62)) * 2))%float /\
  Decode.float64_of_int64 (2 ^ 63 - 1) = (PrimFloat.of_uint63 (Uint63.of_Z (2 ^ 62)) * 2)%float /\
  (Decode.float64_of_int64 364617550 / 1e7)%float = 36.461755%float.
Proof. vm_compute. repeat split. Qed.

(** C7 on the ASCII instances: "50m" and a spelling with spaces and capitals. *)
Lemma parseDistance_recognizes_units_witness :
  Units.parseDistance Units.ascii_ToLower Units.ascii_TrimSpace
    Units.digits_ParseFloat "50m" = Ok 0.05%float /\
  Units.parseDistance Units.ascii_ToLower Units.ascii_TrimSpace
    Units.digits_ParseFloat " 100 KM " = Ok 100%float /\
  ~ exists km, Units.recognized Units.ascii_ToLower Units.ascii_TrimSpace
                 Units.digits_ParseFloat "50" km.
Proof.
  destruct (parseDistance_recognizes_units Units.ascii_ToLower
              Units.ascii_TrimSpace Units.digits_ParseFloat
              ascii_TrimSpace_keeps_k digits_ParseFloat_rejects_k)
    as (Hok & Herr & _ & Hfifty).
  split; [apply Hfifty; reflexivity|]. split.
  - apply Hok. exists "100 "%string, "km"%string, 1%float, 100%float.
    split; [simpl; tauto|]. repeat split; vm_compute; reflexivity.
  - apply Herr. eexists. vm_compute. reflexivity.
Defined.

(** C4 on a gap of nine and on a gap of ten after twelve points inside. *)
Lemma gap_hysteresis_witness :
  (exists l st',
     Visits.iterate Instances.gridDistance false Instances.origin 0.05%float
       Instances.gapOfNine (list_to_set (seqZ 0 26)) 25 10%nat 12
       Instances.openRun = (l, Returned st') /\
     filter is_closure_line l = [] /\
     Visits.totalInsideCount st' = 13 /\
     Visits.maxConsecutiveInsideCount st' = 12) /\
  (exists st',
     Visits.iterate Instances.gridDistance false Instances.origin 0.05%float
       Instances.gapOfTen (list_to_set (seqZ 0 37)) 36 10%nat 12
       Instances.openRun
     = ([LogVisited (mkVisit 1000 1011 12 12)], Returned st') /\
     Visits.totalInsideCount st' = 0 /\
     Visits.maxConsecutiveInsideCount st' = 0).
Proof.
  split.
  - destruct (gap_hysteresis Instances.gridDistance false Instances.origin
                0.05%float Instances.gapOfNine (list_to_set (seqZ 0 26)) 25
                12 Instances.openRun)
      as [Hnine _]; [reflexivity|vm_compute; reflexivity|lia|].
    destruct Hnine as (l & st' & Hrun & Hlines & Htotal & Hmax & _);
      [vm_compute; reflexivity|lia|].
    exists l, st'. repeat split; assumption.
  - destruct (gap_hysteresis Instances.gridDistance false Instances.origin
                0.05%float Instances.gapOfTen (list_to_set (seqZ 0 37)) 36
                12 Instances.openRun)
      as [_ Hten]; [reflexivity|vm_compute; reflexivity|lia|].
    apply Hten. vm_compute; reflexivity.
Defined.

(** C5 at the last index of [computedLast], reached with ten consecutive
    points inside. *)
Lemma visit_emitted_iff_max_at_least_ten_witness :
  visits (Visits.body Instances.gridDistance false Instances.origin
            0.05%float Instances.computedLast (list_to_set (seqZ 0 11)) 10
            10 Instances.tenInside).1
  = [mkVisit 1000 1009 10 10].
Proof.
  apply (visit_emitted_iff_max_at_least_ten Instances.gridDistance false
           Instances.origin 0.05%float Instances.computedLast
           (list_to_set (seqZ 0 11)) 10 10 Instances.tenInside
           (mkConverted 0%float 1%float 1010) 111%float).
  - reflexivity.
  - vm_compute; reflexivity.
  - vm_compute; reflexivity.
  - vm_compute; discriminate.
Defined.

(** C8 on two orders of the candidates of [computedLast]. *)
Lemma detect_independent_of_candidate_order_witness :
  Visits.detect Instances.gridDistance false Instances.origin 0.05%float
    Instances.computedLast [3; 10; 0; 1; 2; 5; 4; 7; 6; 9; 8]
  = Visits.detect Instances.gridDistance false Instances.origin 0.05%float
      Instances.computedLast [0; 1; 2; 3; 4; 5; 6; 7; 8; 9; 10].
Proof.
  apply (detect_independent_of_candidate_order Instances.gridDistance false
           Instances.origin 0.05%float Instances.computedLast).
  assert (Hsort : merge_sort Z.le [3; 10; 0; 1; 2; 5; 4; 7; 6; 9; 8]
                  = [0; 1; 2; 3; 4; 5; 6; 7; 8; 9; 10])
    by (vm_compute; reflexivity).
  rewrite <- Hsort. symmetry. apply merge_sort_Permutation.
Defined.

(** C9 on an export without locations. *)
Lemma empty_candidate_set_returns_without_scanning_witness :
  Main.main Instances.gridDistance Units.ascii_ToLower Units.ascii_TrimSpace
    Units.digits_ParseFloat Decode.decimal_ParseInt Main.linearRange
    Instances.flags0 Instances.world0 100
  = ([LogUsingTarget Instances.target0; LogUsingDistance 0.05%float;
      LogLoaded 0],
     Returned ()).
Proof.
  eapply (empty_candidate_set_returns_without_scanning Instances.gridDistance
            Units.ascii_ToLower Units.ascii_TrimSpace Units.digits_ParseFloat
            Decode.decimal_ParseInt Main.linearRange
            Instances.flags0 Instances.world0 100%nat Instances.target0
            0.05%float _ _ [] [] []).
  - reflexivity.
  - reflexivity.
  - vm_compute; reflexivity.
  - vm_compute; reflexivity.
  - reflexivity.
  - reflexivity.
Defined.

(** C10 on a record cut short after a well-formed one, and on two
    well-formed records. *)
Lemma short_timestamp_panics_witness :
  Decode.convertAll Decode.decimal_ParseInt
    [Some Instances.goodRecord; Some Instances.shortRecord]
  = ([], Panicked SliceBoundsOutOfRange) /\
  exists converted,
    Decode.convertAll Decode.decimal_ParseInt
      [Some Instances.goodRecord; Some Instances.goodRecord]
    = ([], Returned converted).
Proof.
  destruct (short_timestamp_panics Decode.decimal_ParseInt
              [Some Instances.goodRecord] [] Instances.shortRecord
              [Some Instances.goodRecord; Some Instances.goodRecord])
    as [Hshort Hlong].
  split.
  - apply Hshort; [vm_compute; reflexivity|simpl; lia].
  - destruct Hlong as [(converted & Hrun & _)|[s Hfatal]];
      [reflexivity|eauto|].
    vm_compute in Hfatal. discriminate Hfatal.
Defined.

(** * Further properties *)

(** ** The visit scan: what it prints and when it returns *)

Lemma visits_app (l1 l2 : list log_line) :
  visits (l1 ++ l2) = visits l1 ++ visits l2.
Proof. apply omap_app. Qed.

Section ScanMore.

Import Visits Facts.

Variable VincentyDistance : Point -> Point -> result string float.
Variables (debug : bool) (target : Point) (threshholdKm : float).
Variable points : list ConvertedLocation.
Variables (candidates : gset Z) (lastIndex : Z).

Local Abbreviation distance_at :=
  (distance_at VincentyDistance target threshholdKm candidates).
Local Abbreviation finish := (finish debug lastIndex).
Local Abbreviation body :=
  (body VincentyDistance debug target threshholdKm points candidates lastIndex).
Local Abbreviation iterate :=
  (iterate VincentyDistance debug target threshholdKm points candidates
     lastIndex).
Local Abbreviation run_inv := (run_inv points).
Local Abbreviation sound_visit := (sound_visit points).

(** The shapes of one iteration: a panic at the index expression, a
    skipped point, or an update of the counters followed by the last [if]. *)
Lemma body_cases (idx : Z) (st : counters) :
  (in_range points idx = false /\
   body idx st = ([], Panicked IndexOutOfRange)) \/
  exists loc,
    in_range points idx = true /\
    points !! Z.to_nat idx = Some loc /\
    ((exists e, distance_at idx loc = Err e /\
                body idx st
                = (if debug then [LogSkipping loc e] else [], Returned st)) \/
     (exists d dbg,
        distance_at idx loc = Ok d /\
        visits dbg = [] /\
        let st1 := if (d <? threshholdKm)%float
                   then inside loc st else outside st in
        body idx st = (dbg ++ (finish idx st1).1, (finish idx st1).2))).
Proof.
  unfold Visits.body, at_index, in_range.
  destruct (Z.ltb_spec idx 0) as [Hneg|Hpos].
  { left. split; [|reflexivity].
    destruct (Z.leb_spec 0 idx); [lia|reflexivity]. }
  destruct (points !! Z.to_nat idx) as [loc|] eqn:Hloc.
  - right. exists loc.
    apply lookup_lt_Some in Hloc as Hlt.
    replace (0 <=? idx) with true by (symmetry; apply Z.leb_le; lia).
    replace (idx <? Z.of_nat (length points)) with true
      by (symmetry; apply Z.ltb_lt; lia).
    do 2 (split; [reflexivity|]). rewrite M_ret_bind.
    destruct (distance_at idx loc) as [d|e].
    + right. destruct (d <? threshholdKm)%float eqn:Hd.
      * exists d, (if debug then [LogDistance d (LocTime loc)] else []).
        split; [reflexivity|]. split; [now destruct debug|].
        cbv zeta. rewrite Hd. now rewrite debugPrintf_then, M_bind_returned.
      * exists d, []. do 2 (split; [reflexivity|]).
        cbv zeta. rewrite Hd, M_ret_bind.
        now destruct (finish idx (outside st)).
    + left. exists e. split; [reflexivity|]. apply debugPrintf_then.
  - left. apply lookup_ge_None in Hloc. split; [|reflexivity].
    replace (idx <? Z.of_nat (length points)) with false
      by (symmetry; apply Z.ltb_ge; lia).
    apply andb_false_r.
Qed.

Lemma finish_eq (idx : Z) (st : counters) :
  finish idx st
  = if closes lastIndex idx st
    then (if minPinpointCount <=? maxConsecutiveInsideCount st
          then [LogVisited (record_of st)]
          else if (0 <? totalInsideCount st) && debug
               then [LogDropped (record_of st)] else [],
          Returned (mkCounters (startTime st) (endTime st) 0
                      (consecutiveInsideCount st) 0
                      (consecutiveOutsideCount st)))
    else ([], Returned st).
Proof.
  unfold Visits.finish. destruct (closes _ _ _); [apply close_run_eq|].
  reflexivity.
Qed.

(** An iteration always ends with counters, unless the index is out of the
    slice. *)
Lemma body_returns (idx : Z) (st : counters) :
  in_range points idx = true ->
  exists l st', body idx st = (l, Returned st').
Proof.
  intros Hin.
  destruct (body_cases idx st) as [[Hout _]|(loc & _ & _ & Hcase)];
    [congruence|].
  destruct Hcase as [(e & _ & ->)|(d & dbg & _ & _ & ->)]; [eauto|].
  rewrite finish_eq. destruct (closes _ _ _); eauto.
Qed.

Lemma inside_inv (loc : ConvertedLocation) (st : counters) :
  In loc points -> run_inv st -> run_inv (inside loc st).
Proof.
  intros Hloc (Hc & Hm & Ht). unfold Facts.run_inv, inside. simpl.
  apply (in_map LocTime) in Hloc.
  destruct (Z.ltb_spec (maxConsecutiveInsideCount st)
              (consecutiveInsideCount st + 1)).
  - repeat split; try lia.
    + destruct (Z.eqb_spec (totalInsideCount st) 0); [assumption|].
      apply Ht. lia.
    + assumption.
  - repeat split; try lia.
    + destruct (Z.eqb_spec (totalInsideCount st) 0); [assumption|].
      apply Ht. lia.
    + assumption.
Qed.

Lemma outside_inv (st : counters) : run_inv st -> run_inv (outside st).
Proof.
  intros (Hc & Hm & Ht). unfold Facts.run_inv, outside. simpl.
  repeat split; try lia; now apply Ht.
Qed.

(** The record of counters that keep the invariant and have reached the
    minimum run is a sound visit. *)
Lemma record_sound (st : counters) :
  run_inv st -> minPinpointCount <= maxConsecutiveInsideCount st ->
  sound_visit (record_of st).
Proof.
  intros (Hc & Hm & Ht) Hmax. unfold Facts.sound_visit, record_of. simpl.
  unfold minPinpointCount in *.
  destruct Ht as [Hs He]; [lia|]. repeat split; assumption || lia.
Qed.

Lemma finish_sound (idx : Z) (st : counters) :
  run_inv st -> Forall sound_visit (visits (finish idx st).1).
Proof.
  intros Hinv. rewrite finish_eq.
  destruct (closes _ _ _); [|constructor]. simpl.
  destruct (Z.leb_spec minPinpointCount (maxConsecutiveInsideCount st)).
  - constructor; [now apply record_sound|constructor].
  - destruct (_ && _); constructor.
Qed.

(** Whatever the index, the visits an iteration prints are sound. *)
Lemma body_sound (idx : Z) (st : counters) :
  run_inv st -> Forall sound_visit (visits (body idx st).1).
Proof.
  intros Hinv.
  destruct (body_cases idx st) as [[_ ->]|(loc & _ & Hloc & Hcase)];
    [constructor|].
  apply list_elem_of_lookup_2, list_elem_of_In in Hloc.
  destruct Hcase as [(e & _ & ->)|(d & dbg & _ & Hdbg & ->)].
  - destruct debug; constructor.
  - cbn [fst]. rewrite visits_app, Hdbg. apply finish_sound.
    destruct (d <? threshholdKm)%float;
      [now apply inside_inv|now apply outside_inv].
Qed.

(** Before the last index an iteration keeps the invariant. *)
Lemma body_inv (idx : Z) (st st' : counters) (l : list log_line) :
  idx <> lastIndex -> run_inv st ->
  body idx st = (l, Returned st') -> run_inv st'.
Proof.
  intros Hidx Hinv.
  destruct (body_cases idx st) as [[_ ->]|(loc & _ & Hloc & Hcase)];
    [discriminate|].
  apply list_elem_of_lookup_2, list_elem_of_In in Hloc.
  destruct Hcase as [(e & _ & ->)|(d & dbg & _ & _ & ->)].
  - now intros [= _ <-].
  - rewrite finish_eq. unfold closes.
    destruct (Z.eqb_spec idx lastIndex); [contradiction|].
    rewrite orb_false_r.
    destruct (d <? threshholdKm)%float.
    + cbn [inside consecutiveOutsideCount]. simpl.
      intros [= _ <-]. now apply inside_inv.
    + pose proof (outside_inv st Hinv) as Hout.
      destruct (minPinpointCount <=? _); simpl; intros [= _ <-];
        [|assumption].
      destruct Hout as (Hc & Hm & Ht). unfold Facts.run_inv. simpl in *.
      repeat split; lia.
Qed.

Lemma iterate_sound (n : nat) :
  forall (idx : Z) (st : counters),
    run_inv st ->
    n = 0%nat \/ idx + Z.of_nat n <= lastIndex + 1 ->
    Forall sound_visit (visits (iterate n idx st).1).
Proof.
  induction n as [|n IH]; intros idx st Hinv Hspan; [constructor|].
  cbn [Visits.iterate].
  pose proof (body_sound idx st Hinv) as Hbody.
  destruct (body idx st) as [l1 [st1| | | |]] eqn:Hb; try exact Hbody.
  rewrite M_bind_returned. cbn [fst] in *. rewrite visits_app.
  apply Forall_app. split; [exact Hbody|].
  destruct n as [|n]; [constructor|].
  apply IH; [|right; lia].
  eapply body_inv; [|exact Hinv|exact Hb]. lia.
Qed.

Lemma iterate_returns (n : nat) :
  forall (idx : Z) (st : counters),
    0 <= idx -> idx + Z.of_nat n <= Z.of_nat (length points) ->
    exists l st', iterate n idx st = (l, Returned st').
Proof.
  induction n as [|n IH]; intros idx st Hlo Hhi; [simpl; eauto|].
  cbn [Visits.iterate].
  destruct (body_returns idx st) as (l1 & st1 & ->).
  { unfold in_range. apply andb_true_iff. split;
      [apply Z.leb_le|apply Z.ltb_lt]; lia. }
  rewrite M_bind_returned.
  destruct (IH (idx + 1) st1) as (l2 & st2 & ->); [lia..|]. simpl. eauto.
Qed.

(** An index outside the slice stops the loop with a panic, at that
    index or before. *)
Lemma iterate_panics (n : nat) :
  forall (idx : Z) (st : counters) (j : Z),
    idx <= j < idx + Z.of_nat n ->
    in_range points j = false ->
    (iterate n idx st).2 = Panicked IndexOutOfRange.
Proof.
  induction n as [|n IH]; intros idx st j Hj Hout; [lia|].
  cbn [Visits.iterate].
  destruct (body_cases idx st) as [[_ ->]|(loc & Hin & _ & Hcase)];
    [reflexivity|].
  assert (Hne : j <> idx) by congruence.
  assert (Hret : exists l st', body idx st = (l, Returned st')).
  { apply body_returns. exact Hin. }
  destruct Hret as (l & st' & ->). rewrite M_bind_returned. cbn [snd].
  apply (IH (idx + 1) st' j); [lia|assumption].
Qed.

(** X16: counting from the initial counters, after [n] iterations every
    counter lies between 0 and [n]; over a slice, whose length is below
    2^63, no counter leaves the range of Go's [int], so the counters never
    wrap around. *)
Theorem counters_never_overflow
    (n : nat) (idx : Z) (st' : counters) (l : list log_line) :
  Z.of_nat n < 2 ^ 63 ->
  iterate n idx initial = (l, Returned st') ->
  bounded (Z.of_nat n) st' /\
  0 <= totalInsideCount st' < 2 ^ 63 /\
  0 <= consecutiveInsideCount st' < 2 ^ 63 /\
  0 <= maxConsecutiveInsideCount st' < 2 ^ 63 /\
  0 <= consecutiveOutsideCount st' < 2 ^ 63.
Proof.
  intros Hn Hrun.
  assert (Hb : bounded (0 + Z.of_nat n) st').
  { eapply scan_counters_bounded; [|exact Hrun].
    unfold bounded, initial. simpl. lia. }
  rewrite Z.add_0_l in Hb. split; [exact Hb|].
  destruct Hb as (Ht & Hc & Hm & Ho). repeat split; lia.
Qed.

End ScanMore.

Lemma last_In (l : list Z) (d : Z) : l <> [] -> In (List.last l d) l.
Proof.
  induction l as [|x l IH]; [congruence|]. intros _.
  destruct l as [|y l]; [now left|]. right. apply IH. discriminate.
Qed.

(** The first and the last index of the sorted slice are candidates. *)
Lemma sortInts_ends (indexes : list Z) :
  indexes <> [] ->
  In (hd 0 (Visits.sortInts indexes)) indexes /\
  In (List.last (Visits.sortInts indexes) 0) indexes.
Proof.
  intros Hne. unfold Visits.sortInts.
  pose proof (merge_sort_Permutation Z.le indexes) as Hperm.
  assert (Hsorted : merge_sort Z.le indexes <> []).
  { intros Hnil. rewrite Hnil in Hperm.
    apply Permutation_nil_l in Hperm. congruence. }
  split.
  - apply (Permutation_in _ Hperm).
    destruct (merge_sort Z.le indexes); [congruence|now left].
  - apply (Permutation_in _ Hperm). now apply last_In.
Qed.

(** The first index of the sorted slice is the smallest candidate and the
    last the largest. *)
Lemma StronglySorted_last (l : list Z) :
  StronglySorted Z.le l -> forall i, In i l -> i <= List.last l 0.
Proof.
  induction 1 as [|x l Hl IH Hx]; intros i Hi; [destruct Hi|].
  destruct l as [|y l]; [destruct Hi as [->|[]]; simpl; lia|].
  change (List.last (x :: y :: l) 0) with (List.last (y :: l) 0).
  destruct Hi as [->|Hi]; [|now apply IH].
  rewrite List.Forall_forall in Hx.
  pose proof (Hx y ltac:(now left)). pose proof (IH y ltac:(now left)). lia.
Qed.

Lemma sortInts_bounds (indexes : list Z) (i : Z) :
  In i indexes ->
  hd 0 (Visits.sortInts indexes) <= i <= List.last (Visits.sortInts indexes) 0.
Proof.
  intros Hi. unfold Visits.sortInts.
  pose proof (merge_sort_Permutation Z.le indexes) as Hperm.
  assert (Hsorted : StronglySorted Z.le (merge_sort Z.le indexes)).
  { apply Sorted_StronglySorted; [intros x y z; lia|].
    apply Sorted_merge_sort. intros x y; lia. }
  symmetry in Hperm. apply (Permutation_in _ Hperm) in Hi.
  split; [|now apply StronglySorted_last].
  clear Hperm. set (sorted := merge_sort Z.le indexes) in *. clearbody sorted.
  destruct Hsorted as [|x l Hl Hx]; [destruct Hi|]. simpl.
  destruct Hi as [->|Hi]; [lia|].
  rewrite List.Forall_forall in Hx. now apply Hx.
Qed.

Section DetectMore.

Import Visits Facts.

Variables (debug : bool) (target : Point) (threshholdKm : float).

(** The scan keeps the invariant from the initial counters on. *)
Lemma scan_sound
    (VincentyDistance : Point -> Point -> result string float)
    (points : list ConvertedLocation) (candidates : gset Z)
    (lastIndex first : Z) :
  Forall (sound_visit points)
    (visits (scan VincentyDistance debug target threshholdKm points
               candidates lastIndex first initial).1).
Proof.
  unfold scan. apply iterate_sound.
  - unfold run_inv, initial. simpl. repeat split; lia.
  - destruct (Z.to_nat (lastIndex - first + 1)) eqn:Hn;
      [now left|right; lia].
Qed.

(** The visits [detect] prints are those of its scan. *)
Lemma detect_visits
    (VincentyDistance : Point -> Point -> result string float)
    (points : list ConvertedLocation) (indexes : list Z) :
  visits (detect VincentyDistance debug target threshholdKm points
            indexes).1
  = match indexes with
    | [] => []
    | _ => visits (scan VincentyDistance debug target threshholdKm points
                     (list_to_set indexes)
                     (List.last (sortInts indexes) 0)
                     (hd 0 (sortInts indexes)) initial).1
    end.
Proof.
  unfold detect. destruct indexes as [|i rest]; [reflexivity|].
  destruct (scan _ _ _ _ _ _ _ _ _) as [l [st| | | |]];
    unfold_M; cbn [fst]; now rewrite ?app_nil_r.
Qed.

(** X1: every visit the scan prints is sound, whatever the points, the
    candidates and the distance function: it counts at least 10 consecutive
    points inside, no more consecutive points than points in all, and it
    starts and ends at times of the point sequence. *)
Theorem detect_prints_sound_visits
    (VincentyDistance : Point -> Point -> result string float)
    (points : list ConvertedLocation) (indexes : list Z) :
  Forall (sound_visit points)
    (visits (detect VincentyDistance debug target threshholdKm points
               indexes).1).
Proof.
  rewrite detect_visits. destruct indexes as [|i rest]; [constructor|].
  apply scan_sound.
Qed.

Lemma detect_nonempty
    (VincentyDistance : Point -> Point -> result string float)
    (points : list ConvertedLocation) (indexes : list Z) :
  indexes <> [] ->
  detect VincentyDistance debug target threshholdKm points indexes
  = (scan VincentyDistance debug target threshholdKm points
       (list_to_set indexes) (List.last (sortInts indexes) 0)
       (hd 0 (sortInts indexes)) initial ≫= fun _ => mret ()).
Proof. unfold detect. now destruct indexes. Qed.

(** With indices of the slice only, the scan returns. *)
Lemma detect_in_range_returns
    (VincentyDistance : Point -> Point -> result string float)
    (points : list ConvertedLocation) (indexes : list Z) :
  forallb (in_range points) indexes = true ->
  exists l, detect VincentyDistance debug target threshholdKm points indexes
            = (l, Returned ()).
Proof.
  intros Hall. unfold detect.
  destruct indexes as [|i rest] eqn:Hidx; [now exists []|].
  rewrite <- Hidx in *.
  destruct (sortInts_ends indexes) as [Hfirst Hlast]; [now rewrite Hidx|].
  rewrite forallb_forall in Hall.
  apply Hall in Hfirst, Hlast. unfold in_range in *.
  apply andb_true_iff in Hfirst as [Hf0%Z.leb_le Hf1%Z.ltb_lt].
  apply andb_true_iff in Hlast as [Hl0%Z.leb_le Hl1%Z.ltb_lt].
  unfold scan.
  destruct (iterate_returns VincentyDistance debug target threshholdKm points
              (list_to_set indexes) (List.last (sortInts indexes) 0)
              (Z.to_nat (List.last (sortInts indexes) 0
                         - hd 0 (sortInts indexes) + 1))
              (hd 0 (sortInts indexes)) initial) as (l & st' & ->);
    [lia..|].
  exists l. unfold_M. now rewrite app_nil_r.
Qed.

(** X2: the scan returns exactly when every index the range query
    returned is an index of the point slice; with an index outside the
    slice it panics at the index expression, at that index or before. *)
Theorem detect_returns_iff_indexes_in_range
    (VincentyDistance : Point -> Point -> result string float)
    (points : list ConvertedLocation) (indexes : list Z) :
  (forallb (in_range points) indexes = true ->
   (detect VincentyDistance debug target threshholdKm points indexes).2
   = Returned ()) /\
  (forallb (in_range points) indexes = false ->
   (detect VincentyDistance debug target threshholdKm points indexes).2
   = Panicked IndexOutOfRange).
Proof.
  split.
  - intros Hall.
    now destruct (detect_in_range_returns VincentyDistance points indexes Hall)
      as [l ->].
  - intros Hsome.
    assert (Hne : indexes <> []) by (intros ->; discriminate).
    assert (Hbad : exists i, In i indexes /\ in_range points i = false).
    { clear Hne. induction indexes as [|i rest IH]; [discriminate|].
      simpl in Hsome. destruct (in_range points i) eqn:Hi.
      - destruct (IH Hsome) as (j & Hj & Hout). exists j. split;
          [now right|assumption].
      - exists i. split; [now left|assumption]. }
    destruct Hbad as (i & Hi & Hout).
    destruct (sortInts_bounds indexes i Hi) as [Hlo Hhi].
    rewrite (detect_nonempty VincentyDistance points indexes Hne).
    unfold scan.
    pose proof (iterate_panics VincentyDistance debug target threshholdKm
                  points (list_to_set indexes)
                  (List.last (sortInts indexes) 0)
                  (Z.to_nat (List.last (sortInts indexes) 0
                             - hd 0 (sortInts indexes) + 1))
                  (hd 0 (sortInts indexes)) initial i) as Hpanic.
    destruct (iterate _ _ _ _ _ _ _ _ _ _) as [l o]. cbn [snd] in Hpanic.
    rewrite Hpanic; [reflexivity|lia|assumption].
Qed.

Section Frame.

Variables (V1 V2 : Point -> Point -> result string float)
          (points1 points2 : list ConvertedLocation)
          (indexes : list Z) (lo hi : Z).

Hypothesis indexes_in_span : forall i, In i indexes -> lo <= i <= hi.
Hypothesis same_points :
  forall i, lo <= i <= hi ->
            points1 !! Z.to_nat i = points2 !! Z.to_nat i.
Hypothesis same_distance :
  forall i loc, In i indexes -> points1 !! Z.to_nat i = Some loc ->
    V1 (mkPoint (Latitude loc) (Longitude loc)) target
    = V2 (mkPoint (Latitude loc) (Longitude loc)) target.

Lemma body_frame (lastIndex idx : Z) (st : counters) :
  lo <= idx <= hi ->
  body V1 debug target threshholdKm points1 (list_to_set indexes) lastIndex
    idx st
  = body V2 debug target threshholdKm points2 (list_to_set indexes) lastIndex
      idx st.
Proof.
  intros Hidx. unfold body, at_index. rewrite <- (same_points idx Hidx).
  destruct (idx <? 0); [reflexivity|].
  destruct (points1 !! Z.to_nat idx) as [loc|] eqn:Hloc; [|reflexivity].
  rewrite !M_ret_bind. unfold distance_at.
  destruct (bool_decide_reflect (idx ∈ (list_to_set indexes : gset Z)))
    as [Hin|Hout]; [|reflexivity].
  apply elem_of_list_to_set, list_elem_of_In in Hin.
  now rewrite (same_distance idx loc Hin Hloc).
Qed.

Lemma iterate_frame (lastIndex : Z) (n : nat) :
  forall (idx : Z) (st : counters),
    lo <= idx -> n = 0%nat \/ idx + Z.of_nat n <= hi + 1 ->
    iterate V1 debug target threshholdKm points1 (list_to_set indexes)
      lastIndex n idx st
    = iterate V2 debug target threshholdKm points2 (list_to_set indexes)
        lastIndex n idx st.
Proof.
  induction n as [|n IH]; intros idx st Hlo Hhi; [reflexivity|].
  cbn [iterate]. rewrite body_frame by lia.
  apply M_bind_ext. intros st'. apply IH; [lia|].
  destruct n; [now left|right; lia].
Qed.

(** X3: the scan reads the point slice only between the smallest and the
    largest candidate index and calls the distance function only on
    candidates.  Two runs whose slices agree on a range of indices that
    holds every candidate, and whose distance functions agree on the
    candidate points, print the same lines and end the same way. *)
Theorem detect_reads_only_the_span :
  detect V1 debug target threshholdKm points1 indexes
  = detect V2 debug target threshholdKm points2 indexes.
Proof.
  destruct (decide (indexes = [])) as [Hnil|Hne]; [now rewrite Hnil|].
  rewrite !detect_nonempty by assumption.
  destruct (sortInts_ends indexes Hne) as [Hfirst Hlast].
  apply indexes_in_span in Hfirst, Hlast.
  unfold scan. rewrite iterate_frame; [reflexivity|lia|].
  destruct (Z.to_nat _) eqn:Hn; [now left|right; lia].
Qed.

End Frame.

End DetectMore.

(** ** The visit scan on a run of points inside *)

Lemma Sorted_seqZ (n : nat) : forall m, Sorted Z.le (seqZ m (Z.of_nat n)).
Proof.
  induction n as [|n IH]; intros m; [constructor|].
  rewrite seqZ_cons by lia.
  replace (Z.pred (Z.of_nat (S n))) with (Z.of_nat n) by lia.
  constructor; [apply IH|].
  destruct n as [|n]; [constructor|].
  rewrite seqZ_cons by lia. constructor. lia.
Qed.

(** A slice that holds the indices [first .. first + m] sorts to them. *)
Lemma sortInts_seqZ (indexes : list Z) (first : Z) (m : nat) :
  indexes ≡ₚ seqZ first (Z.of_nat (S m)) ->
  Visits.sortInts indexes = seqZ first (Z.of_nat (S m)).
Proof.
  intros Hperm. unfold Visits.sortInts.
  apply (StronglySorted_unique Z.le).
  - apply Sorted_StronglySorted; [intros x y z; lia|].
    apply Sorted_merge_sort. intros x y; lia.
  - apply Sorted_StronglySorted; [intros x y z; lia|]. apply Sorted_seqZ.
  - now rewrite merge_sort_Permutation.
Qed.

Section RunMore.

Import Visits Facts.

Variable VincentyDistance : Point -> Point -> result string float.
Variables (debug : bool) (target : Point) (threshholdKm : float).
Variable points : list ConvertedLocation.

Section Loop.

Variables (candidates : gset Z) (lastIndex : Z).

Local Abbreviation is_inside :=
  (is_inside VincentyDistance target threshholdKm points candidates).
Local Abbreviation body :=
  (body VincentyDistance debug target threshholdKm points candidates lastIndex).
Local Abbreviation iterate :=
  (iterate VincentyDistance debug target threshholdKm points candidates
     lastIndex).
Local Abbreviation finish := (finish debug lastIndex).

Lemma inside_after_insides (idx : Z) (loc : ConvertedLocation)
    (st : counters) :
  points !! Z.to_nat idx = Some loc ->
  inside loc st = after_insides points 1 idx st.
Proof.
  intros Hloc. unfold inside, after_insides, time_at.
  replace (idx + Z.of_nat 1 - 1) with idx by lia. rewrite Hloc.
  change (Z.of_nat 1) with 1. f_equal.
  destruct (Z.ltb_spec (maxConsecutiveInsideCount st)
              (consecutiveInsideCount st + 1)); lia.
Qed.

Lemma after_insides_snoc (n : nat) (idx : Z) (st : counters) :
  0 <= totalInsideCount st ->
  after_insides points 1 (idx + Z.of_nat n) (after_insides points n idx st)
  = after_insides points (S n) idx st.
Proof.
  intros Htotal. destruct n as [|n]; [now rewrite Z.add_0_r|].
  unfold after_insides. cbn [totalInsideCount startTime
    consecutiveInsideCount maxConsecutiveInsideCount].
  destruct (Z.eqb_spec (totalInsideCount st + Z.of_nat (S n)) 0); [lia|].
  f_equal; try lia. f_equal. lia.
Qed.

Lemma after_insides_S (n : nat) (idx : Z) (st : counters) :
  0 <= totalInsideCount st ->
  after_insides points n (idx + 1) (after_insides points 1 idx st)
  = after_insides points (S n) idx st.
Proof.
  intros Htotal. destruct n as [|n]; [reflexivity|].
  unfold after_insides. cbn [totalInsideCount startTime
    consecutiveInsideCount maxConsecutiveInsideCount].
  destruct (Z.eqb_spec (totalInsideCount st + Z.of_nat 1) 0); [lia|].
  f_equal; try lia. f_equal. lia.
Qed.

(** Points inside, none at the last index, are counted without a line
    about a visit. *)
Lemma iterate_insides (n : nat) :
  forall (idx : Z) (st : counters),
    0 <= totalInsideCount st ->
    all_from is_inside n idx = true ->
    idx + Z.of_nat n <= lastIndex ->
    exists l,
      iterate n idx st = (l, Returned (after_insides points n idx st)) /\
      filter is_closure_line l = [].
Proof.
  induction n as [|n IH]; intros idx st Htotal Hall Hlast;
    [exists []; split; reflexivity|].
  simpl in Hall. apply andb_true_iff in Hall as [Hin Hall].
  cbn [Visits.iterate].
  destruct (body_inside VincentyDistance debug target threshholdKm points
              candidates lastIndex idx st Hin)
    as (loc & d & Hloc & _ & ->).
  unfold Visits.finish, closes. cbn [inside consecutiveOutsideCount].
  destruct (Z.eqb_spec idx lastIndex); [lia|].
  change (minPinpointCount <=? 0) with false. cbn [orb].
  change (mret (inside loc st) : M counters)
    with (([], Returned (inside loc st)) : M counters).
  cbn [fst snd]. rewrite app_nil_r, M_bind_returned.
  rewrite (inside_after_insides idx loc st Hloc).
  destruct (IH (idx + 1) (after_insides points 1 idx st))
    as (l & -> & Hl); [simpl; lia|assumption|lia|].
  rewrite (after_insides_S n idx st Htotal). cbn [fst snd].
  eexists. split; [reflexivity|].
  rewrite filter_app, Hl. now destruct debug.
Qed.

End Loop.

(** X4: when the candidates are the indices [first .. first + m] and all
    these points are inside, the scan returns and prints one visit if
    there are at least 10 points, none otherwise; the visit starts at the
    time of the first point, ends at the time of the last and counts every
    point, in all and in a row. *)
Theorem detect_run_of_inside_points
    (indexes : list Z) (first : Z) (m : nat) :
  indexes ≡ₚ seqZ first (Z.of_nat (S m)) ->
  all_from (is_inside VincentyDistance target threshholdKm points
              (list_to_set indexes)) (S m) first = true ->
  (detect VincentyDistance debug target threshholdKm points indexes).2
  = Returned () /\
  visits (detect VincentyDistance debug target threshholdKm points
            indexes).1
  = if minPinpointCount <=? Z.of_nat (S m)
    then [mkVisit (time_at points first)
            (time_at points (first + Z.of_nat m))
            (Z.of_nat (S m)) (Z.of_nat (S m))]
    else [].
Proof.
  intros Hperm Hall.
  assert (Hne : indexes <> []).
  { intros ->. apply Permutation_nil_l in Hperm.
    rewrite seqZ_cons in Hperm by lia. discriminate. }
  rewrite (detect_nonempty debug target threshholdKm VincentyDistance
             points indexes Hne).
  rewrite (sortInts_seqZ indexes first m Hperm).
  assert (Hhd : hd 0 (seqZ first (Z.of_nat (S m))) = first)
    by now rewrite seqZ_cons by lia.
  assert (Hlast : List.last (seqZ first (Z.of_nat (S m))) 0
                  = first + Z.of_nat m)
    by now rewrite seqZ_S, last_last.
  rewrite Hhd, Hlast. unfold scan.
  replace (Z.to_nat (first + Z.of_nat m - first + 1)) with (m + 1)%nat
    by lia.
  set (cands := list_to_set indexes : gset Z) in *.
  set (lastIndex := first + Z.of_nat m).
  assert (Hsplit : all_from (is_inside VincentyDistance target threshholdKm
                               points cands) m first = true /\
                   is_inside VincentyDistance target threshholdKm points
                     cands lastIndex = true).
  { clear -Hall. subst lastIndex. revert first Hall.
    induction m as [|m IH]; intros first Hall.
    - simpl in *. rewrite Z.add_0_r.
      now apply andb_true_iff in Hall as [-> _].
    - change (all_from ?f (S (S m)) first)
        with (f first && all_from f (S m) (first + 1)) in Hall.
      apply andb_true_iff in Hall as [Hfirst Hall].
      destruct (IH (first + 1) Hall) as [Hm Hl].
      split; [simpl; now rewrite Hfirst, Hm|].
      now replace (first + Z.of_nat (S m))
        with (first + 1 + Z.of_nat m) by lia. }
  destruct Hsplit as [Hm Hl].
  rewrite iterate_plus.
  destruct (iterate_insides cands lastIndex m first initial)
    as (l & -> & Hlines); [simpl; lia|assumption|subst lastIndex; lia|].
  rewrite M_bind_returned. cbn [Visits.iterate].
  rewrite M_right_id.
  destruct (body_inside VincentyDistance debug target threshholdKm points
              cands lastIndex (first + Z.of_nat m)
              (after_insides points m first initial) Hl)
    as (loc & d & Hloc & _ & ->).
  rewrite (inside_after_insides _ loc _ Hloc).
  rewrite (after_insides_snoc m first initial) by (simpl; lia).
  unfold Visits.finish, closes.
  replace (first + Z.of_nat m =? lastIndex) with true
    by (symmetry; apply Z.eqb_eq; reflexivity).
  rewrite orb_true_r, close_run_eq. cbn [fst snd].
  rewrite M_bind_returned. cbn [fst snd mret M_ret ret].
  rewrite app_nil_r. split; [reflexivity|].
  rewrite !visits_app.
  assert (Hvl : visits l = []).
  { clear -Hlines. induction l as [|[] l IH]; simpl in *;
      try discriminate; auto. }
  rewrite Hvl. cbn [app].
  assert (Hdbg : visits (if debug then [LogDistance d (LocTime loc)] else [])
                 = []) by now destruct debug.
  rewrite Hdbg. cbn [app].
  unfold after_insides, record_of, initial. simpl Z.add.
  cbn [maxConsecutiveInsideCount totalInsideCount startTime endTime
         consecutiveInsideCount].
  replace (Z.max 0 (0 + Z.of_nat (S m))) with (Z.of_nat (S m)) by lia.
  replace (0 + Z.of_nat (S m)) with (Z.of_nat (S m)) by lia.
  replace (first + Z.of_nat (S m) - 1) with (first + Z.of_nat m) by lia.
  destruct (minPinpointCount <=? Z.of_nat (S m)); [reflexivity|].
  now destruct (_ && debug).
Qed.

End RunMore.

(** ** The bounding box solver: which coordinate moves, which error wins *)

Section BoxMore.

Import Box Facts.

Variable VincentyDistance : Point -> Point -> result string float.

Lemma load_store_other (f : field) (p : Point) (v : float) :
  load (other f) (store f p v) = load (other f) p.
Proof. now destruct f. Qed.

Section FindMore.

Variables (p1 : Point) (dir : direction) (adjust : field)
          (limit targetDistance : float).

(** The first loop writes through [adjust] only. *)
Lemma expand_keeps_other (fuel : nat) :
  forall (p2 p2' : Point) (inc : float) (r : option find_error),
    expand VincentyDistance p1 dir adjust limit targetDistance fuel p2 inc
    = Some (p2', r) ->
    load (other adjust) p2' = load (other adjust) p2.
Proof.
  induction fuel as [|fuel IH]; intros p2 p2' inc r; simpl; [discriminate|].
  destruct (fgt _ _); [intros [= <- _]; apply load_store_other|].
  destruct (VincentyDistance p1 _) as [d|e];
    [|intros [= <- _]; apply load_store_other].
  destruct (fgt d targetDistance); [intros [= <- _]; apply load_store_other|].
  intros Hrec. rewrite (IH _ _ _ _ Hrec). apply load_store_other.
Qed.

(** The midpoint of two points with the same coordinate [x] has it too,
    when halving is exact at [x]. *)
Lemma midpoint_keeps (f : field) (a b : Point) (x : float) :
  exact_half x -> load f a = x -> load f b = x ->
  load f (midpoint a b) = x.
Proof.
  unfold exact_half. intros Hx Ha Hb.
  destruct f; simpl in *; now rewrite Ha, Hb.
Qed.

Lemma bisect_keeps (f : field) (x : float) (fuel : nat) :
  exact_half x ->
  forall a b m : Point,
    load f a = x -> load f b = x ->
    bisect VincentyDistance p1 targetDistance fuel a b = Some (Ok m) ->
    load f m = x.
Proof.
  intros Hx. induction fuel as [|fuel IH]; intros a b m Ha Hb; simpl;
    [discriminate|].
  pose proof (midpoint_keeps f a b x Hx Ha Hb) as Hm.
  destruct (VincentyDistance p1 (midpoint a b)) as [d|e]; [|discriminate].
  destruct (within_tolerance d targetDistance); [now intros [= <-]|].
  destruct (fgt d targetDistance); now apply IH.
Qed.

(** [find] leaves the other coordinate of [*p2] as it is, when [p1] has
    the same and halving is exact there. *)
Lemma find_keeps_other (fuel : nat) (p2 q : Point) (r : option find_error) :
  exact_half (load (other adjust) p1) ->
  load (other adjust) p2 = load (other adjust) p1 ->
  find VincentyDistance p1 dir adjust limit targetDistance fuel p2
  = Some (q, r) ->
  load (other adjust) q = load (other adjust) p1.
Proof.
  intros Hx Hsame. unfold find.
  destruct (expand _ _ _ _ _ _ fuel p2 _) as [[p2' [e|]]|] eqn:Hexp;
    try discriminate; apply expand_keeps_other in Hexp.
  - intros [= <- _]. congruence.
  - destruct (bisect _ _ _ fuel p1 p2') as [[m|e]|] eqn:Hb;
      try discriminate; intros [= <- _]; [|congruence].
    eapply bisect_keeps; [exact Hx|reflexivity| |exact Hb]. congruence.
Qed.

End FindMore.

(** X5: when [findBoundingBox] returns a box around a center whose
    coordinates halve exactly, the four searches returned the points on
    the center's parallel and meridian that the box is built from: east
    and west at the center's latitude, north and south at its longitude. *)
Theorem findBoundingBox_extremes_on_the_axes
    (fuel : nat) (p : Point) (size : float) (ne sw : Point) :
  exact_half (Lat p) -> exact_half (Long p) ->
  findBoundingBox VincentyDistance fuel p size = Some (Ok (ne, sw)) ->
  search VincentyDistance fuel p size East
    = Some (mkPoint (Lat p) (Long ne), None) /\
  search VincentyDistance fuel p size North
    = Some (mkPoint (Lat ne) (Long p), None) /\
  search VincentyDistance fuel p size West
    = Some (mkPoint (Lat p) (Long sw), None) /\
  search VincentyDistance fuel p size South
    = Some (mkPoint (Lat sw) (Long p), None).
Proof.
  intros Hlat Hlong. unfold findBoundingBox.
  destruct (search _ fuel p size East) as [[e [?|]]|] eqn:He; try discriminate.
  destruct (search _ fuel p size North) as [[n [?|]]|] eqn:Hn; try discriminate.
  destruct (search _ fuel p size West) as [[w [?|]]|] eqn:Hw; try discriminate.
  destruct (search _ fuel p size South) as [[s [?|]]|] eqn:Hs; try discriminate.
  intros [= <- <-]. simpl.
  apply find_keeps_other in He, Hn, Hw, Hs; try assumption; try reflexivity.
  simpl in He, Hn, Hw, Hs.
  destruct e, n, w, s; simpl in *; subst. repeat split; reflexivity.
Qed.

(** X6: [findBoundingBox] returns an error exactly when one of the four
    searches returns it after the searches before it, in the order east,
    north, west, south, have succeeded; the searches after it do not
    matter. *)
Theorem findBoundingBox_fails_with_first_error
    (fuel : nat) (p : Point) (size : float) (err : find_error) :
  findBoundingBox VincentyDistance fuel p size = Some (Err err)
  <-> exists (c : cardinal) (p2' : Point),
        forallb (succeeds VincentyDistance fuel p size) (earlier c) = true /\
        search VincentyDistance fuel p size c = Some (p2', Some err).
Proof.
  split.
  - unfold findBoundingBox.
    destruct (search _ fuel p size East) as [[e [?|]]|] eqn:He;
      try discriminate.
    { intros [= <-]. exists East, e. split; [reflexivity|assumption]. }
    destruct (search _ fuel p size North) as [[n [?|]]|] eqn:Hn;
      try discriminate.
    { intros [= <-]. exists North, n. split; [|assumption].
      unfold succeeds. simpl. now rewrite He. }
    destruct (search _ fuel p size West) as [[w [?|]]|] eqn:Hw;
      try discriminate.
    { intros [= <-]. exists West, w. split; [|assumption].
      unfold succeeds. simpl. now rewrite He, Hn. }
    destruct (search _ fuel p size South) as [[s [?|]]|] eqn:Hs;
      try discriminate.
    intros [= <-]. exists South, s. split; [|assumption].
    unfold succeeds. simpl. now rewrite He, Hn, Hw.
  - intros (c & p2' & Hearlier & Hc).
    eapply findBoundingBox_error; eassumption.
Qed.

End BoxMore.

(** ** The conversion loop: alignment, first failure, milliseconds *)

Section ConvertMore.

Import Decode.

Variable ParseInt : string -> result string Z.

Local Abbreviation convert := (convert ParseInt).
Local Abbreviation convertAll := (convertAll ParseInt).

(** A conversion prints nothing. *)
Lemma convert_log (location : option Location) : (convert location).1 = [].
Proof.
  pose proof (convertAll_log ParseInt [location]) as Hlog.
  cbn [Decode.convertAll] in Hlog.
  destruct (convert location) as [l [c| | | |]]; try exact Hlog.
  rewrite M_bind_returned in Hlog. simpl in Hlog.
  now apply app_eq_nil in Hlog as [-> _].
Qed.

Lemma convertAll_cons_returned (location : option Location)
    (rest : list (option Location)) (c : ConvertedLocation) :
  convert location = ([], Returned c) ->
  convertAll (location :: rest)
  = (convertAll rest ≫= fun cs => mret (c :: cs)).
Proof. intros Hc. cbn [Decode.convertAll]. now rewrite Hc, M_left_id. Qed.

(** X7: the loop returns a slice exactly when every record is converted,
    and then the slice lines up with the records: as many elements, the
    element at each index the conversion of the record at that index. *)
Theorem convertAll_aligns_with_the_records
    (pinpoints : list (option Location))
    (converted : list ConvertedLocation) :
  convertAll pinpoints = ([], Returned converted)
  <-> Forall2 (fun location c => convert location = ([], Returned c))
        pinpoints converted.
Proof.
  revert converted.
  induction pinpoints as [|location rest IH]; intros converted.
  - split; [intros [= <-]; constructor|]. intros H. now inversion H.
  - pose proof (convert_log location) as Hlog.
    destruct (convert location) as [l [c| | | |]] eqn:Hc; simpl in Hlog;
      subst l.
    + rewrite (convertAll_cons_returned location rest c Hc). split.
      * destruct (convertAll rest) as [l' [cs| | | |]] eqn:Hrest;
          try (unfold_M; discriminate).
        rewrite M_bind_returned. cbn [fst snd mret M_ret ret].
        rewrite app_nil_r. intros [= -> <-].
        constructor; [exact Hc|]. now apply IH.
      * intros H. inversion H as [|? c' ? cs Hc' Hrest]; subst.
        rewrite Hc in Hc'. injection Hc' as <-.
        apply IH in Hrest. now rewrite Hrest, M_left_id.
    + cbn [Decode.convertAll]. rewrite Hc. split; [discriminate|].
      intros H. inversion H; subst. congruence.
    + cbn [Decode.convertAll]. rewrite Hc. split; [discriminate|].
      intros H. inversion H; subst. congruence.
    + cbn [Decode.convertAll]. rewrite Hc. split; [discriminate|].
      intros H. inversion H; subst. congruence.
    + cbn [Decode.convertAll]. rewrite Hc. split; [discriminate|].
      intros H. inversion H; subst. congruence.
Qed.

Lemma convertAll_after_converted (before rest : list (option Location)) :
  forallb (converts ParseInt) before = true ->
  forall f,
    convertAll rest = ([], Fatal f) ->
    convertAll (before ++ rest) = ([], Fatal f).
Proof.
  intros Hbefore f Hrest.
  induction before as [|b before IH]; [exact Hrest|].
  simpl in Hbefore. apply andb_true_iff in Hbefore as [Hb Hbefore].
  unfold converts in Hb. pose proof (convert_log b) as Hlog.
  destruct (convert b) as [l [c| | | |]] eqn:Hc; try discriminate Hb.
  simpl in Hlog. subst l. cbn [app].
  rewrite (convertAll_cons_returned b _ c Hc), (IH Hbefore). reflexivity.
Qed.

(** X8: the loop ends the run with "Error parsing time" and a string [s]
    exactly when the first record that is not converted is present, has
    a timestamp of three bytes or more, [s] is that timestamp without its
    last three bytes, and [strconv.ParseInt] rejects [s].  The records
    after it are not looked at. *)
Theorem convertAll_fatal_at_first_unparsable_timestamp
    (pinpoints : list (option Location)) (s : string) :
  convertAll pinpoints = ([], Fatal (FatalParsingTime s))
  <-> exists (before after : list (option Location)) (location : Location)
             (e : string),
        pinpoints = before ++ Some location :: after /\
        forallb (converts ParseInt) before = true /\
        (3 <= String.length (timestampMs location))%nat /\
        s = substring 0 (String.length (timestampMs location) - 3)
              (timestampMs location) /\
        ParseInt s = Err e.
Proof.
  split.
  - induction pinpoints as [|location rest IH]; [discriminate|].
    pose proof (convert_log location) as Hlog.
    destruct (convert location) as [l [c| | | |]] eqn:Hc; simpl in Hlog;
      subst l.
    + rewrite (convertAll_cons_returned location rest c Hc).
      destruct (convertAll rest) as [l' [cs| | | |]] eqn:Hrest;
        try (unfold_M; discriminate).
      pose proof (convertAll_log ParseInt rest) as Hl'.
      rewrite Hrest in Hl'. simpl in Hl'. subst l'.
      unfold_M. intros [= ->].
      destruct (IH eq_refl) as (before & after & loc & e & -> & Hb & Hrestc).
      exists (location :: before), after, loc, e.
      split; [reflexivity|]. split; [|exact Hrestc].
      simpl. unfold converts at 1. now rewrite Hc.
    + cbn [Decode.convertAll]. rewrite Hc. unfold mbind, M_bind, bind.
      intros [= ->].
      destruct location as [location|]; [|discriminate Hc].
      unfold Decode.convert, secondsString in Hc.
      destruct (Nat.ltb_spec (String.length (timestampMs location)) 3);
        [unfold_M; discriminate Hc|].
      rewrite M_ret_bind in Hc.
      match type of Hc with context [ParseInt ?x] =>
        destruct (ParseInt x) as [seconds|e] eqn:Hp
      end; [unfold_M; discriminate Hc|].
      unfold logFatalf in Hc. injection Hc as <-.
      exists [], rest, location, e. repeat split; assumption.
    + cbn [Decode.convertAll]. rewrite Hc. discriminate.
    + cbn [Decode.convertAll]. rewrite Hc. discriminate.
    + cbn [Decode.convertAll]. rewrite Hc. discriminate.
  - intros (before & after & location & e & -> & Hbefore & Hlen & -> & Hp).
    apply convertAll_after_converted; [assumption|].
    cbn [Decode.convertAll]. unfold Decode.convert.
    rewrite (secondsString_long _ Hlen), M_left_id, Hp. reflexivity.
Qed.

(** X9: the last three bytes of a timestamp are cut off without being
    looked at: a record whose timestamp is [s] followed by any three bytes
    is converted like [s] is parsed, with the time [strconv.ParseInt]
    reads in [s] and the coordinates divided by 1e7. *)
Theorem convert_ignores_the_milliseconds
    (lat long : Z) (s ms : string) :
  String.length ms = 3%nat ->
  convert (Some (mkLocation lat long (s ++ ms)%string))
  = match ParseInt s with
    | Err _ => ([], Fatal (FatalParsingTime s))
    | Ok seconds =>
        ([], Returned
               (mkConverted (float64_of_int64 lat / 1e7)%float
                  (float64_of_int64 long / 1e7)%float seconds))
    end.
Proof.
  intros Hms. unfold Decode.convert. cbn [timestampMs].
  rewrite secondsString_long by (rewrite length_append; lia).
  rewrite M_left_id, length_append, Hms.
  replace (String.length s + 3 - 3)%nat with (String.length s) by lia.
  rewrite substring_prefix. now destruct (ParseInt s).
Qed.

End ConvertMore.

(** ** The whole run: what reaches the scan, what it may print *)

Section QuietFacts.

Import Facts.

Lemma quiet_ret {A} (a : A) : quiet (mret a : M A).
Proof. split; [reflexivity|discriminate]. Qed.

Lemma quiet_logFatalf {A} (f : fatal) : quiet (logFatalf f : M A).
Proof. split; [reflexivity|discriminate]. Qed.

Lemma quiet_bind {A B} (m : M A) (f : A -> M B) :
  quiet m -> (forall a, quiet (f a)) -> quiet (m ≫= f).
Proof.
  intros [Hv Hp] Hf. destruct m as [l [a| | | |]]; cbn [fst snd] in *;
    try (split; [assumption|]; unfold mbind, M_bind, bind; cbn [snd];
         congruence).
  rewrite M_bind_returned. destruct (Hf a) as [Hva Hpa].
  split; [|assumption]. cbn [fst]. now rewrite visits_app, Hv, Hva.
Qed.

Lemma quiet_convertAll (ParseInt : string -> result string Z)
    (pinpoints : list (option Location)) :
  quiet (Decode.convertAll ParseInt pinpoints).
Proof.
  induction pinpoints as [|location rest IH]; [apply quiet_ret|].
  cbn [Decode.convertAll]. apply quiet_bind.
  - destruct location as [location|]; [|split; [reflexivity|discriminate]].
    unfold Decode.convert. apply quiet_bind.
    + unfold Decode.secondsString.
      destruct (_ <? _)%nat; split; (reflexivity || discriminate).
    + intros s. destruct (ParseInt s);
        [apply quiet_ret|apply quiet_logFatalf].
  - intros c. apply quiet_bind; [exact IH|]. intros cs. apply quiet_ret.
Qed.

End QuietFacts.

Section MainMore.

Import Main Facts.

Variable VincentyDistance : Point -> Point -> result string float.
Variables (ToLower TrimSpace : string -> string)
          (ParseFloat : string -> result string float)
          (ParseInt : string -> result string Z).
Variable bushRange :
  list ConvertedLocation -> float -> float -> float -> float -> list Z.

Section OneRun.

Variables (flags : Flags) (world : World).

Local Abbreviation main :=
  (main VincentyDistance ToLower TrimSpace ParseFloat ParseInt bushRange
     flags world).
Local Abbreviation detect := (Visits.detect VincentyDistance (debug flags)).

Local Abbreviation scans :=
  (scans VincentyDistance bushRange (debug flags)).

Lemma scans_bind {A} (m : M A) (f : A -> M unit) :
  quiet m -> (forall a, quiet (f a) \/ scans (f a)) ->
  quiet (m ≫= f) \/ scans (m ≫= f).
Proof.
  intros [Hv Hp] Hf. destruct m as [l [a| | | |]]; cbn [fst snd] in *;
    try (left; split; [assumption|]; unfold mbind, M_bind, bind;
         cbn [snd]; congruence).
  rewrite M_bind_returned. destruct (Hf a) as [[Hva Hpa]|Hs].
  - left. split; [|assumption]. cbn [fst]. now rewrite visits_app, Hv, Hva.
  - right. destruct Hs as (target & km & ne & sw & converted & l' & Hl' & Hr).
    exists target, km, ne, sw, converted, (l ++ l').
    split; [now rewrite visits_app, Hv, Hl'|].
    cbv zeta in *. rewrite Hr. cbn [fst snd]. now rewrite app_assoc.
Qed.

Lemma quiet_resolveTarget : quiet (resolveTarget flags world).
Proof.
  unfold resolveTarget. destruct (String.eqb _ _); [apply quiet_ret|].
  destruct (getLocation world _) as [[full p]|e];
    split; (reflexivity || discriminate).
Qed.

Lemma quiet_loadConverted : quiet (loadConverted ParseInt flags world).
Proof.
  unfold loadConverted. apply quiet_bind.
  - destruct (cacheData flags); [destruct (cacheFile world)|];
      (apply quiet_ret || apply quiet_logFatalf).
  - intros [converted|]; [apply quiet_ret|].
    apply quiet_bind.
    + destruct (takeoutFile world);
        [apply quiet_logFatalf..|apply quiet_convertAll].
    + intros converted. apply quiet_bind; [|intros _; apply quiet_ret].
      destruct (_ && _); [destruct (cacheWrite world)|];
        (apply quiet_ret || apply quiet_logFatalf).
Qed.

(** Every run either is quiet or ends in the scan. *)
Lemma main_quiet_or_scans (fuel : nat) :
  quiet (main fuel) \/ scans (main fuel).
Proof.
  unfold Main.main.
  destruct (negb _); [left; split; [reflexivity|discriminate]|].
  apply scans_bind; [apply quiet_resolveTarget|]. intros target.
  apply scans_bind; [split; [reflexivity|discriminate]|]. intros _.
  apply scans_bind.
  { destruct (Units.parseDistance _ _ _ _) as [km|e];
      split; (reflexivity || discriminate). }
  intros km. apply scans_bind.
  { destruct (Box.findBoundingBox _ _ _ _) as [[box|e]|];
      split; (reflexivity || discriminate). }
  intros [ne sw]. apply scans_bind.
  { destruct (debug flags); split; (reflexivity || discriminate). }
  intros _. apply scans_bind; [apply quiet_loadConverted|].
  intros converted. right. unfold Main.search.
  exists target, km, ne, sw, converted, [LogLoaded (length converted)].
  split; [reflexivity|]. cbv zeta. unfold logPrintf.
  now rewrite M_bind_returned.
Qed.

(** X10: whatever the flags, the files, the network and the libraries
    do, every visit a run prints counts at least 10 consecutive points
    inside and no more consecutive points than points in all. *)
Theorem main_prints_only_qualified_visits (fuel : nat) :
  Forall qualifies (visits (main fuel).1).
Proof.
  destruct (main_quiet_or_scans fuel) as [[-> _]|Hs]; [constructor|].
  destruct Hs as (target & km & ne & sw & converted & l & Hl & ->).
  cbn [fst]. rewrite visits_app, Hl, detect_visits. cbn [app].
  destruct (bushRange converted _ _ _ _); [constructor|].
  eapply Forall_impl; [apply scan_sound|].
  intros v (Hmin & Hmax & _). now split.
Qed.

(** X11: when the range query returns only indices of the slice it was
    given, as an index over that slice does, no run panics at the index
    expression of the scan. *)
Theorem main_indexes_within_the_points (fuel : nat) :
  (forall points minX minY maxX maxY,
     forallb (in_range points) (bushRange points minX minY maxX maxY)
     = true) ->
  (main fuel).2 <> Panicked IndexOutOfRange.
Proof.
  intros Hrange.
  destruct (main_quiet_or_scans fuel) as [[_ Hp]|Hs]; [exact Hp|].
  destruct Hs as (target & km & ne & sw & converted & l & _ & ->).
  cbn [snd].
  destruct (detect_in_range_returns (debug flags) target km VincentyDistance
              converted
              (bushRange converted (Lat sw) (Long sw) (Lat ne) (Long ne))
              (Hrange _ _ _ _ _)) as [l' ->].
  discriminate.
Qed.

(** X12: a run that gets through its start (one argument, the target
    resolved, the threshold parsed, the box found, the locations loaded)
    prints the target, the distance, the box in debug mode and the number
    of points, then what the scan of the candidates in the box prints, and
    ends as that scan ends. *)
Theorem main_scans_the_candidates_in_the_box
    (fuel : nat) (target : Point) (km : float) (ne sw : Point)
    (converted : list ConvertedLocation) (l0 l1 : list log_line) :
  length (args world) = 1%nat ->
  resolveTarget flags world = (l0, Returned target) ->
  Units.parseDistance ToLower TrimSpace ParseFloat (threshold flags) = Ok km ->
  Box.findBoundingBox VincentyDistance fuel target (km * 2)%float
    = Some (Ok (ne, sw)) ->
  loadConverted ParseInt flags world = (l1, Returned converted) ->
  let indexes := bushRange converted (Lat sw) (Long sw) (Lat ne) (Long ne) in
  main fuel
  = (l0 ++ [LogUsingTarget target; LogUsingDistance km]
        ++ (if debug flags then [LogBoundingBox ne sw] else [])
        ++ [LogLoaded (length converted)]
        ++ (detect target km converted indexes).1,
     (detect target km converted indexes).2) /\
  visits (main fuel).1 = visits (detect target km converted indexes).1.
Proof.
  intros Hargs Htarget Hparse Hbox Hload indexes.
  pose proof (loadConverted_log ParseInt flags world) as Hl1.
  rewrite Hload in Hl1. simpl in Hl1. subst l1.
  assert (Hmain : main fuel
    = (l0 ++ [LogUsingTarget target; LogUsingDistance km]
          ++ (if debug flags then [LogBoundingBox ne sw] else [])
          ++ [LogLoaded (length converted)]
          ++ (detect target km converted indexes).1,
       (detect target km converted indexes).2)).
  { unfold Main.main. rewrite Hargs. cbn [Nat.eqb negb].
    unfold mbind, M_bind, bind. rewrite Htarget. cbn [logPrintf].
    rewrite Hparse. cbn [logPrintf mret M_ret ret]. rewrite Hbox.
    cbn [mret M_ret ret]. rewrite Hload. cbn beta iota.
    unfold Main.search. fold indexes. unfold mbind, M_bind, bind.
    cbn [logPrintf].
    destruct (detect target km converted indexes) as [l r].
    destruct (debug flags); simpl; now rewrite ?app_nil_r. }
  split; [exact Hmain|]. rewrite Hmain. cbn [fst].
  rewrite !visits_app, (resolveTarget_visits _ _ _ _ Htarget).
  now destruct (debug flags).
Qed.


End OneRun.

(** X14: a cache that is read shadows the takeout file.  With caching on
    and a cache file that decodes, the run does not depend on the takeout
    file nor on whether the cache could be written: a takeout file that is
    missing, or holds a bad timestamp, changes nothing. *)
Theorem cache_shadows_the_takeout_file
    (flags : Flags) (arguments : list string)
    (geocode : string -> result string (string * Point))
    (cached : list ConvertedLocation)
    (takeout1 takeout2 : takeout_read) (write1 write2 : cache_write)
    (fuel : nat) :
  cacheData flags = true ->
  main VincentyDistance ToLower TrimSpace ParseFloat ParseInt bushRange flags
    (mkWorld arguments geocode (CacheDecoded cached) takeout1 write1) fuel
  = main VincentyDistance ToLower TrimSpace ParseFloat ParseInt bushRange flags
      (mkWorld arguments geocode (CacheDecoded cached) takeout2 write2) fuel.
Proof.
  intros Hcache.
  assert (Hload : forall takeout write,
             loadConverted ParseInt flags
               (mkWorld arguments geocode (CacheDecoded cached) takeout write)
             = ([], Returned cached)).
  { intros takeout write. unfold loadConverted. rewrite Hcache.
    cbn [cacheFile]. now rewrite !M_ret_bind. }
  unfold Main.main, resolveTarget. cbn [args getLocation].
  now rewrite !Hload.
Qed.

End MainMore.

(** ** [getLocation] *)

Section GeocodeFacts.

Import Geocode.

(** X15: [getLocation] returns a point exactly when the request gave a
    response with status code 200 whose body decodes to a response with
    status "OK" and at least one result; the point is the location of the
    first result, whose address is the one line logged.  It panics exactly
    when a response with code 200 has the JSON value null for a body. *)
Theorem getLocation_returns_the_first_result
    (address : string) (got : result string Response) :
  (forall p l,
     getLocation address got = (l, Returned (Ok p))
     <-> exists response gr first rest,
           got = Ok response /\ StatusCode response = 200 /\
           decoded response = Ok (Some gr) /\ status gr = "OK"%string /\
           results gr = first :: rest /\
           p = geometry_location first /\
           l = [LogResolvedAddress (formatted_address first)]) /\
  (forall p l,
     getLocation address got = (l, Panicked p)
     <-> exists response,
           got = Ok response /\ StatusCode response = 200 /\
           decoded response = Ok None /\
           p = NilPointerDereference /\ l = []).
Proof.
  unfold getLocation. split; intros p l; split.
  - destruct got as [response|e]; [|discriminate].
    destruct (Z.eqb_spec (StatusCode response) 200) as [Hcode|Hcode];
      cbn [negb]; [|destruct (readAll response); discriminate].
    destruct (decoded response) as [[gr|]|e] eqn:Hdec; try discriminate.
    destruct (String.eqb_spec (status gr) "OK") as [Hst|Hst]; cbn [negb];
      [|discriminate].
    destruct (results gr) as [|first rest] eqn:Hres; [discriminate|].
    intros [= <- <-]. exists response, gr, first, rest.
    repeat split; assumption.
  - intros (response & gr & first & rest & -> & Hcode & Hdec & Hst & Hres
              & -> & ->).
    rewrite Hcode, Hdec, Hst, Hres. reflexivity.
  - destruct got as [response|e]; [|discriminate].
    destruct (Z.eqb_spec (StatusCode response) 200) as [Hcode|Hcode];
      cbn [negb]; [|destruct (readAll response); discriminate].
    destruct (decoded response) as [[gr|]|e] eqn:Hdec; try discriminate.
    + destruct (negb _); [discriminate|].
      destruct (results gr); discriminate.
    + intros [= <- <-]. exists response. repeat split; assumption.
  - intros (response & -> & Hcode & Hdec & -> & ->).
    rewrite Hcode, Hdec. reflexivity.
Qed.

End GeocodeFacts.

(** ** The further properties on concrete inputs *)

(** The linear range query returns indices of the slice. *)
Lemma linearRange_in_range (points : list ConvertedLocation)
    (minX minY maxX maxY : float) :
  forallb (Facts.in_range points)
    (Main.linearRange points minX minY maxX maxY) = true.
Proof.
  apply forallb_forall. intros x Hx. unfold Main.linearRange in Hx.
  apply list_elem_of_In, list_elem_of_omap in Hx as ([i loc] & Hin & Hsome).
  apply elem_of_lookup_imap in Hin as (j & loc' & [= -> ->] & Hlookup).
  apply lookup_lt_Some in Hlookup.
  destruct (_ && _)%float; [|discriminate]. injection Hsome as <-.
  unfold Facts.in_range. apply andb_true_iff.
  split; [apply Z.leb_le|apply Z.ltb_lt]; lia.
Qed.

(** X3 on [computedLast] and the same points followed by one more. *)
Lemma detect_reads_only_the_span_witness :
  Visits.detect Instances.gridDistance false Instances.origin 0.05%float
    Instances.computedLast (seqZ 0 11)
  = Visits.detect Instances.gridDistance false Instances.origin 0.05%float
      (Instances.computedLast ++ [mkConverted 0%float 0%float 2000])
      (seqZ 0 11).
Proof.
  apply (detect_reads_only_the_span false Instances.origin 0.05%float
           Instances.gridDistance Instances.gridDistance
           Instances.computedLast
           (Instances.computedLast ++ [mkConverted 0%float 0%float 2000])
           (seqZ 0 11) 0 10).
  - intros i Hi. vm_compute in Hi. intuition lia.
  - intros i Hi. symmetry. apply lookup_app_l.
    change (length Instances.computedLast) with 11%nat. lia.
  - reflexivity.
Defined.

(** X4 on twelve points at the origin, the candidates in another order. *)
Lemma detect_run_of_inside_points_witness :
  visits (Visits.detect Instances.gridDistance false Instances.origin
            0.05%float (Instances.stay 0%float 0%float 1000 12)
            [7; 3; 11; 0; 1; 2; 5; 4; 10; 6; 9; 8]).1
  = [mkVisit 1000 1011 12 12].
Proof.
  apply (detect_run_of_inside_points Instances.gridDistance false
           Instances.origin 0.05%float
           (Instances.stay 0%float 0%float 1000 12)
           [7; 3; 11; 0; 1; 2; 5; 4; 10; 6; 9; 8] 0 11).
  - assert (Hsort : merge_sort Z.le [7; 3; 11; 0; 1; 2; 5; 4; 10; 6; 9; 8]
                    = seqZ 0 (Z.of_nat 12)) by (vm_compute; reflexivity).
    rewrite <- Hsort. symmetry. apply merge_sort_Permutation.
  - vm_compute. reflexivity.
Defined.

(** X5 at the default target with a radius of 100 m. *)
Lemma findBoundingBox_extremes_on_the_axes_witness :
  exists ne sw : Point,
    Box.findBoundingBox Instances.gridDistance 100 Instances.target0
      0.1%float = Some (Ok (ne, sw)) /\
    Box.search Instances.gridDistance 100 Instances.target0 0.1%float
      Box.East
    = Some (mkPoint (Lat Instances.target0) (Long ne), None) /\
    Box.search Instances.gridDistance 100 Instances.target0 0.1%float
      Box.South
    = Some (mkPoint (Lat sw) (Long Instances.target0), None).
Proof.
  eexists; eexists; split; [vm_compute; reflexivity|].
  edestruct (findBoundingBox_extremes_on_the_axes Instances.gridDistance
               100 Instances.target0 0.1%float)
    as (He & _ & _ & Hs);
    [vm_compute; reflexivity|vm_compute; reflexivity
    |vm_compute; reflexivity|].
  split; [exact He|exact Hs].
Defined.

(** X9 on a timestamp whose last three bytes are not digits. *)
Lemma convert_ignores_the_milliseconds_witness :
  Decode.convert Decode.decimal_ParseInt
    (Some (mkLocation 364617550 (-1168666120) "1500000000abc"))
  = ([], Returned (mkConverted 36.461755%float (-116.866612)%float
                     1500000000)).
Proof.
  exact (convert_ignores_the_milliseconds Decode.decimal_ParseInt
           364617550 (-1168666120) "1500000000" "abc" eq_refl).
Defined.

(** X11 with the linear range query, on the sample export. *)
Lemma main_indexes_within_the_points_witness :
  (Main.main Instances.gridDistance Units.ascii_ToLower
     Units.ascii_TrimSpace Units.digits_ParseFloat Decode.decimal_ParseInt
     Main.linearRange Instances.flags0 Samples.world 100).2
  <> Panicked IndexOutOfRange.
Proof.
  apply (main_indexes_within_the_points Instances.gridDistance
           Units.ascii_ToLower Units.ascii_TrimSpace Units.digits_ParseFloat
           Decode.decimal_ParseInt Main.linearRange
           Instances.flags0 Samples.world 100).
  apply linearRange_in_range.
Defined.

(** X12 on the sample export: twelve points at the target, one visit. *)
Lemma main_scans_the_candidates_in_the_box_witness :
  Main.main Instances.gridDistance Units.ascii_ToLower
    Units.ascii_TrimSpace Units.digits_ParseFloat Decode.decimal_ParseInt
    Main.linearRange Instances.flags0 Samples.world 100
  = ([LogUsingTarget Instances.target0; LogUsingDistance 0.05%float;
      LogLoaded 12;
      LogVisited (mkVisit 1500000000 1500000011 12 12)],
     Returned ()).
Proof.
  edestruct (main_scans_the_candidates_in_the_box Instances.gridDistance
               Units.ascii_ToLower Units.ascii_TrimSpace
               Units.digits_ParseFloat Decode.decimal_ParseInt
               Main.linearRange Instances.flags0 Samples.world 100)
    as [Hmain _];
    [reflexivity|reflexivity|vm_compute; reflexivity
    |vm_compute; reflexivity|vm_compute; reflexivity|].
  rewrite Hmain. vm_compute. reflexivity.
Defined.


(** X14 with a cache of twelve points, against a takeout file that
    cannot be opened and one with a record cut short. *)
Lemma cache_shadows_the_takeout_file_witness :
  Main.main Instances.gridDistance Units.ascii_ToLower
    Units.ascii_TrimSpace Units.digits_ParseFloat Decode.decimal_ParseInt
    Main.linearRange Instances.flags0
    (Main.mkWorld ["Location History.json"%string]
       (fun _ => Err "no network"%string)
       (Main.CacheDecoded (Instances.stay 0%float 0%float 1000 12))
       (Main.TakeoutOpenError "no such file") Main.CacheWritten) 100
  = Main.main Instances.gridDistance Units.ascii_ToLower
      Units.ascii_TrimSpace Units.digits_ParseFloat Decode.decimal_ParseInt
      Main.linearRange Instances.flags0
      (Main.mkWorld ["Location History.json"%string]
         (fun _ => Err "no network"%string)
         (Main.CacheDecoded (Instances.stay 0%float 0%float 1000 12))
         (Main.TakeoutDecoded [Some Instances.shortRecord])
         (Main.CacheCreateError "read-only file system")) 100.
Proof.
  apply (cache_shadows_the_takeout_file Instances.gridDistance
           Units.ascii_ToLower Units.ascii_TrimSpace Units.digits_ParseFloat
           Decode.decimal_ParseInt Main.linearRange Instances.flags0).
  reflexivity.
Defined.

(** X16 on the eleven points of [computedLast]. *)
Lemma counters_never_overflow_witness :
  exists l st',
    Visits.iterate Instances.gridDistance false Instances.origin 0.05%float
      Instances.computedLast (list_to_set (seqZ 0 11)) 10 11%nat 0
      Visits.initial = (l, Returned st') /\
    Visits.bounded 11 st'.
Proof.
  eexists; eexists; split; [vm_compute; reflexivity|].
  apply (counters_never_overflow Instances.gridDistance false
           Instances.origin 0.05%float Instances.computedLast
           (list_to_set (seqZ 0 11)) 10 11%nat 0 _
           [LogVisited (mkVisit 1000 1009 10 10)]).
  - vm_compute. reflexivity.
  - vm_compute. reflexivity.
Defined.
